(** * quiz: GraphQL selection builder, validator and serializer

    A shallow embedding of [quiz/types.py]: the generic type wrappers
    ([List], [Nullable], [Union]), the selection-set builder
    ([SelectionSet], [Field]), the validator ([_check_args],
    [_check_field], [ObjectMeta.__getitem__], [query]) and the serializer
    ([argument_as_gql], the [__gql__] methods); and of the HTTP
    [middleware] of [quiz/execution.py].

    Python exceptions are values of [Error], and a function that may raise
    returns a [result].  Python dicts are association lists in insertion
    order, tuples are lists.  A Python [str] is a [string]: the character
    numbered [n] is the code point [n], so the strings here are those
    whose code points are all below 256. *)

From Stdlib Require Import String Ascii List ZArith Bool Lia.
From Stdlib Require Import DecimalString DecimalZ.
Import ListNotations.
Open Scope string_scope.
Open Scope list_scope.

Set Warnings "-register-all".

(** ** Python values and classes *)

(** A member of an [enum.Enum] subclass: its [name] and its [value]. *)
Record EnumMember := mkEnumMember {
  member_name : string;
  member_value : string
}.

(** The argument values the builder can be given.  For an instance of a
    user class, [class_text] is [str(type(obj))], such as
    [<class 'tests.test_types.Dog'>], and [mro] has the names of the user
    classes of [type(obj).__mro__], its own class first. *)
Inductive pyval : Type :=
| VNone
| VBool (b : bool)
| VInt (z : Z)
| VFloat (bits : Z)
| VStr (s : string)
| VID (s : string)                               (* an instance of [ID(str)] *)
| VEnum (cls : string) (m : EnumMember)          (* a member of enum class [cls] *)
| VList (items : list pyval)                     (* a Python [list] *)
| VInstance (class_text : string) (mro : list string)
    (* an instance of a user class whose other base is [object] *)
| VStrSubclass (class_text : string) (mro : list string) (s : string).
    (* an instance, with the text [s], of a user class that derives from
       [str] and keeps its [__str__] and [__format__], such as the custom
       scalar [URI = type('URI', (str, ), {})] *)

(** Classes used as type descriptors.  [TList] and [TNullable] are the
    classes made by [List[arg]] and [Nullable[arg]]; [TClass] is a class
    with a name (an Object, Interface or InputObject). *)
Inductive pytype : Type :=
| TObjectAny                                     (* [object] *)
| TBool | TInt | TFloat | TStr | TID | TNoneType
| TEnum (name : string) (members : list EnumMember)
| TClass (name : string)
| TList (arg : pytype)
| TNullable (arg : pytype)
| TUnion (name : string) (args : list pytype).

(** [cls.__name__]; the wrappers are named by
    ['List[{.__name__}]'.format(arg)] and ['Nullable[{.__name__}]'.format(arg)]. *)
Fixpoint type_name (t : pytype) : string :=
  match t with
  | TObjectAny => "object"
  | TBool => "bool"
  | TInt => "int"
  | TFloat => "float"
  | TStr => "str"
  | TID => "ID"
  | TNoneType => "NoneType"
  | TEnum n _ => n
  | TClass n => n
  | TList a => "List[" ++ type_name a ++ "]"
  | TNullable a => "Nullable[" ++ type_name a ++ "]"
  | TUnion n _ => n
  end.

Definition mem (x : string) (l : list string) : bool :=
  existsb (String.eqb x) l.

Definition is_list (v : pyval) : bool :=
  match v with VList _ => true | _ => false end.

Definition is_none (v : pyval) : bool :=
  match v with VNone => true | _ => false end.

(** [isinstance(instance, cls)].  Plain classes follow the class hierarchy
    ([bool] is an [int], [ID] is a [str]); the wrappers follow
    [ListMeta.__instancecheck__], [NullableMeta.__instancecheck__] and
    [UnionMeta.__instancecheck__]. *)
Fixpoint isinstance (instance : pyval) (cls : pytype) {struct cls} : bool :=
  match cls with
  | TObjectAny => true
  | TBool => match instance with VBool _ => true | _ => false end
  | TInt => match instance with VInt _ | VBool _ => true | _ => false end
  | TFloat => match instance with VFloat _ => true | _ => false end
  | TStr =>
      match instance with
      | VStr _ | VID _ | VStrSubclass _ _ _ => true
      | _ => false
      end
  | TID => match instance with VID _ => true | _ => false end
  | TNoneType => is_none instance
  | TEnum n _ => match instance with VEnum c _ => String.eqb c n | _ => false end
  | TClass n =>
      match instance with
      | VInstance _ mro | VStrSubclass _ mro _ => mem n mro
      | _ => false
      end
  | TList arg =>
      match instance with
      | VList items => forallb (fun i => isinstance i arg) items
      | _ => false
      end
  | TNullable arg => is_none instance || isinstance instance arg
  | TUnion _ args => existsb (fun t => isinstance instance t) args
  end.

(** [issubclass(type_, Nullable)]: only the classes made by
    [NullableMeta.__getitem__] derive from [Nullable]. *)
Definition issubclass_Nullable (type_ : pytype) : bool :=
  match type_ with TNullable _ => true | _ => false end.

(** [issubclass(type_, List)]. *)
Definition issubclass_List (type_ : pytype) : bool :=
  match type_ with TList _ => true | _ => false end.

(** ** Frozen dictionaries *)

(** [FrozenDict]: an immutable mapping with string keys, kept in insertion
    order. *)
Definition FrozenDict (V : Type) := list (string * V).

Definition keys {V} (d : FrozenDict V) : list string := map fst d.
Definition values {V} (d : FrozenDict V) : list V := map snd d.

Fixpoint dict_get {V} (d : FrozenDict V) (k : string) : option V :=
  match d with
  | [] => None
  | (k', v) :: rest => if String.eqb k k' then Some v else dict_get rest k
  end.

(** ** Schema records *)

Record InputValue := mkInputValue {
  iv_name : string;
  iv_desc : string;
  iv_type : pytype
}.

Record FieldSchema := mkFieldSchema {
  fs_name : string;
  fs_desc : string;
  fs_type : pytype;
  fs_args : FrozenDict InputValue;
  fs_is_deprecated : bool;
  fs_deprecation_reason : option string
}.

(** ** Selections *)

(** [Selection = Union[Field, InlineFragment]].  A [SelectionSet] wraps the
    tuple [__selections__]; it is that tuple here. *)
Inductive Selection : Type :=
| Field (name : string) (kwargs : FrozenDict pyval)
        (selection_set : list Selection)
| InlineFragment (on : pytype) (selection_set : list Selection).

Definition SelectionSet := list Selection.

Inductive OperationType := QUERY | MUTATION | SUBSCRIPTION.

Record Operation := mkOperation {
  op_type : OperationType;
  op_selection_set : SelectionSet
}.

(** ** Exceptions *)

Inductive Error : Type :=
| BuilderError (msg : string)                    (* [raise Error(msg)] *)
| NoSuchField (on : pytype) (name : string)
| NoSuchArgument (on : pytype) (field : FieldSchema) (name : string)
| InvalidArgumentType (on : pytype) (field : FieldSchema) (name : string)
                      (value : pyval)
| MissingArgument (on : pytype) (field : FieldSchema) (name : string)
| AssertionError                                 (* a failed [assert] *)
| AttributeError                                 (* an attribute is missing *)
| TypeError (msg : string).

Inductive result (A : Type) : Type :=
| Ok (a : A)
| Raise (e : Error).
Arguments Ok {A} a.
Arguments Raise {A} e.

Definition bind {A B} (r : result A) (k : A -> result B) : result B :=
  match r with
  | Ok a => k a
  | Raise e => Raise e
  end.

Notation "x <- r ;; k" := (bind r (fun x => k))
  (at level 61, r at next level, right associativity).
Notation "r ;;; k" := (bind r (fun _ => k))
  (at level 61, right associativity).

(** ** The selection builder *)

(** [Field(name)] with [__defaults__ = (FrozenDict.EMPTY, SelectionSet())]. *)
Definition bare_field (name : string) : Selection := Field name [] [].

(** [SelectionSet.__getattr__]: the tuple it hands to [_make]. *)
Definition SelectionSet_getattr (self : SelectionSet) (name : string)
  : SelectionSet :=
  self ++ [bare_field name].

(** The names bound by the body of [class SelectionSet], with its
    docstring, its module name and the slot that [__slots__] declares.
    Normal attribute look-up finds them on every [SelectionSet], and
    [__getattr__] is not called for them. *)
Definition SelectionSet_namespace : list string :=
  ["__module__"; "__doc__"; "__slots__"; "__selections__"; "__init__";
   "_make"; "__getattr__"; "__getitem__"; "__repr__"; "__call__";
   "__iter__"; "__len__"; "__gql__"; "__eq__"; "__ne__"; "__hash__"].

(** Normal look-up of [name] on a [SelectionSet] finds an attribute: one
    of the class body, or one that the class has from [object] and its
    other bases, which [inherited] tells. *)
Definition found_by_lookup (inherited : string -> bool) (name : string)
  : bool :=
  mem name SelectionSet_namespace || inherited name.

(** The expression [self.name]: [__getattr__] is called when normal
    look-up finds nothing.  [None]: look-up finds an attribute of the
    class (a bound method, the tuple of the slot, ...), and no selection
    set is made. *)
Definition SelectionSet_attribute (inherited : string -> bool)
    (self : SelectionSet) (name : string) : option SelectionSet :=
  if found_by_lookup inherited name then None
  else Some (SelectionSet_getattr self name).

(** [self.n1.n2 ... .nk], one attribute access for each name. *)
Fixpoint attribute_chain (inherited : string -> bool) (self : SelectionSet)
    (names : list string) : option SelectionSet :=
  match names with
  | [] => Some self
  | name :: rest =>
      match SelectionSet_attribute inherited self name with
      | Some next => attribute_chain inherited next rest
      | None => None
      end
  end.

(** [*rest, target = self.__selections__]; [None] is the [ValueError] of
    unpacking an empty tuple. *)
Fixpoint unpack_last {A} (l : list A) : option (list A * A) :=
  match l with
  | [] => None
  | [x] => Some ([], x)
  | x :: tl =>
      match unpack_last tl with
      | Some (rest, target) => Some (x :: rest, target)
      | None => None
      end
  end.

(** Modelled from the spec: [valueclass] (quiz/utils.py) is not among the
    sources; [replace(selection_set=...)] returns the same record with
    that one field changed. *)
Definition replace_selection_set (target : Selection) (ss : SelectionSet)
  : Selection :=
  match target with
  | Field name kwargs _ => Field name kwargs ss
  | InlineFragment on _ => InlineFragment on ss
  end.

(** Modelled from the spec: [replace(kwargs=...)] of [valueclass]; an
    [InlineFragment] declares no [kwargs] field and the call is refused. *)
Definition replace_kwargs (target : Selection) (kw : FrozenDict pyval)
  : result Selection :=
  match target with
  | Field name _ ss => Ok (Field name kw ss)
  | InlineFragment _ _ => Raise (TypeError "replace: no field kwargs")
  end.

(** [assert cond]. *)
Definition assert (cond : bool) : result unit :=
  if cond then Ok tt else Raise AssertionError.

(** [SelectionSet.__getitem__]. *)
Definition SelectionSet_getitem (self selection_set : SelectionSet)
  : result SelectionSet :=
  match unpack_last self with
  | None => Raise (BuilderError "cannot select fields from empty field list")
  | Some (rest, target) =>
      assert (1 <=? length selection_set)%nat ;;;
      Ok (rest ++ [replace_selection_set target selection_set])
  end.

(** [SelectionSet.__call__]. *)
Definition SelectionSet_call (self : SelectionSet) (kwargs : FrozenDict pyval)
  : result SelectionSet :=
  match unpack_last self with
  | None => Raise (BuilderError "cannot call empty field list")
  | Some (rest, target) =>
      target' <- replace_kwargs target kwargs ;;
      Ok (rest ++ [target'])
  end.

(** [SelectionSet.__iter__] consumed into a list, and [__len__]. *)
Definition SelectionSet_iter (self : SelectionSet) : list Selection := self.
Definition SelectionSet_len (self : SelectionSet) : nat := length self.

(** [selector = SelectionSet()]. *)
Definition selector : SelectionSet := [].

(** *** SelectionSet objects *)

(** The tuple in the slot [__selections__] of every [SelectionSet] object
    made so far; an object is named by its position.  Only [__init__]
    assigns to the slot, when the object is made, so that the selection
    set nested in a field is kept as its tuple. *)
Definition Store := list SelectionSet.

(** [self.__selections__]; [None] when there is no object [self]. *)
Definition selections_of (st : Store) (self : nat) : option SelectionSet :=
  nth_error st self.

(** [SelectionSet._make(selections)]: calling the class makes a new object
    and [__init__] sets its slot. *)
Definition _make (selections : SelectionSet) (st : Store) : nat * Store :=
  (length st, st ++ [selections]).

(** How the builder methods end: the tuple they computed is handed to
    [_make]; when they raise, no object is made. *)
Definition make_result (tuple : result SelectionSet) (st : Store)
  : result (nat * Store) :=
  selections <- tuple ;; Ok (_make selections st).

(** What [self.name] gives on an object: an attribute of the class, or the
    object that [__getattr__] returned, with the store after it. *)
Inductive Attribute : Type :=
| OfClass (name : string)
| Made (object : nat) (st : Store).

(** [self.name] on the object [self]. *)
Definition object_getattr (inherited : string -> bool) (st : Store)
    (self : nat) (name : string) : option Attribute :=
  if found_by_lookup inherited name then Some (OfClass name)
  else
    match selections_of st self with
    | Some selections =>
        let (made, st') := _make (SelectionSet_getattr selections name) st in
        Some (Made made st')
    | None => None
    end.

(** [self(k1=v1, ...)] on the object [self], for the keywords that reach
    [__call__] as [kwargs]: the interpreter refuses a keyword named
    [self] before the method runs. *)
Definition object_call (st : Store) (self : nat) (kwargs : FrozenDict pyval)
  : option (result (nat * Store)) :=
  match selections_of st self with
  | Some selections => Some (make_result (SelectionSet_call selections kwargs) st)
  | None => None
  end.

(** [self[selection_set]] on the objects [self] and [selection_set]. *)
Definition object_getitem (st : Store) (self selection_set : nat)
  : option (result (nat * Store)) :=
  match selections_of st self, selections_of st selection_set with
  | Some selections, Some child =>
      Some (make_result (SelectionSet_getitem selections child) st)
  | _, _ => None
  end.

(** [list(self)] and [len(self)] on the object [self]. *)
Definition object_iter (st : Store) (self : nat) : option (list Selection) :=
  option_map SelectionSet_iter (selections_of st self).

Definition object_len (st : Store) (self : nat) : option nat :=
  option_map SelectionSet_len (selections_of st self).

(** ** The validator *)

(** [set.pop()] on a non-empty set, given as one element and the others:
    it returns some element of the set, which one is not specified. *)
Record SetPop := mkSetPop {
  pop : string -> list string -> string;
  pop_member : forall x l, In (pop x l) (x :: l)
}.

(** [a - b] on key views. *)
Definition set_difference (a b : list string) : list string :=
  filter (fun k => negb (mem k b)) a.

(** [for x in l: f(x)], stopping at the first exception. *)
Definition for_each {A} (f : A -> result unit) : list A -> result unit :=
  fix loop (l : list A) : result unit :=
    match l with
    | [] => Ok tt
    | x :: rest => f x ;;; loop rest
    end.

(** [_unwrap_list_or_nullable]. *)
Fixpoint _unwrap_list_or_nullable (type_ : pytype) : pytype :=
  match type_ with
  | TNullable arg => _unwrap_list_or_nullable arg
  | TList arg => _unwrap_list_or_nullable arg
  | _ => type_
  end.

(** What [getattr(cls, name)] finds on a class: a field descriptor, or
    anything else the class has under that name (a method such as
    [str.upper] or [mro], a member of an enum, [__doc__], ...), which has
    no attribute [args]. *)
Inductive ClassAttribute : Type :=
| AField (schema : FieldSchema)
| AOther.

(** The classes as the validator sees them: the field descriptors each
    named class has, by class name and attribute name, and the names under
    which a class has an attribute that is not a field descriptor. *)
Record ClassTable := mkClassTable {
  class_fields : FrozenDict (FrozenDict FieldSchema);
  other_attribute : pytype -> string -> bool
}.

Section Validator.

Variable set_pop : SetPop.
Variable classes : ClassTable.

(** The body of the loop [for param in field.args.values()] of
    [_check_args]. *)
Definition check_param (cls : pytype) (field : FieldSchema)
    (kwargs : FrozenDict pyval) (param : InputValue) : result unit :=
  match dict_get kwargs (iv_name param) with
  | None =>
      if negb (issubclass_Nullable (iv_type param))
      then Raise (MissingArgument cls field (iv_name param))
      else Ok tt
  | Some value =>
      if negb (isinstance value (iv_type param))
      then Raise (InvalidArgumentType cls field (iv_name param) value)
      else Ok tt
  end.

(** [_check_args]. *)
Definition _check_args (cls : pytype) (field : FieldSchema)
    (kwargs : FrozenDict pyval) : result unit :=
  match set_difference (keys kwargs) (keys (fs_args field)) with
  | x :: others => Raise (NoSuchArgument cls field (pop set_pop x others))
  | [] => for_each (check_param cls field kwargs) (values (fs_args field))
  end.

(** The field descriptor the class [parent] has under [name].  Scalars,
    enums and the wrappers have none. *)
Definition declared_field (parent : pytype) (name : string)
  : option FieldSchema :=
  match parent with
  | TClass n =>
      match dict_get (class_fields classes) n with
      | Some namespace => dict_get namespace name
      | None => None
      end
  | _ => None
  end.

(** [getattr(parent, name)]: a field descriptor of the class if it has one
    under [name], else whatever else the class has under that name; [None]
    is the [AttributeError]. *)
Definition class_getattr (parent : pytype) (name : string)
  : option ClassAttribute :=
  match declared_field parent name with
  | Some schema => Some (AField schema)
  | None =>
      if other_attribute classes parent name then Some AOther else None
  end.

(** [_check_field].  Only the [getattr] is inside the [try]: when it finds
    an attribute that is not a field descriptor, [field.args] in
    [_check_args] raises an [AttributeError] that nothing catches. *)
Fixpoint _check_field (parent : pytype) (field : Selection) {struct field}
  : result unit :=
  match field with
  | InlineFragment _ _ => Raise AssertionError
  | Field name kwargs selection_set =>
      match class_getattr parent name with
      | None => Raise (NoSuchField parent name)
      | Some AOther => Raise AttributeError
      | Some (AField schema) =>
          _check_args parent schema kwargs ;;;
          for_each (_check_field (_unwrap_list_or_nullable (fs_type schema)))
                   selection_set
      end
  end.

(** [ObjectMeta.__getitem__]: [cls[selection_set]]. *)
Definition ObjectMeta_getitem (self : pytype) (selection_set : SelectionSet)
  : result Selection :=
  for_each (_check_field self) selection_set ;;;
  Ok (InlineFragment self selection_set).

(** [query]. *)
Definition query (selection_set : SelectionSet) (cls : pytype)
  : result Operation :=
  for_each (_check_field cls) selection_set ;;;
  Ok (mkOperation QUERY selection_set).

End Validator.

(** ** The serializer *)

Definition chr (n : nat) : string := String (ascii_of_nat n) EmptyString.

Definition dquote : string := chr 34.
Definition newline : string := chr 10.

(** [INDENT]. *)
Definition INDENT : string := "  ".

(** [sep.join(parts)]. *)
Definition join (sep : string) (parts : list string) : string :=
  String.concat sep parts.

(** [str(i)] for an [int]. *)
Definition str_of_int (z : Z) : string := NilZero.string_of_int (Z.to_int z).

(** The classes [functools.singledispatch] can meet in the method
    resolution order of an argument value. *)
Inductive pyclass : Type :=
| Cobject | Cstr | CID | Cint | Cbool | Cfloat | CNoneType | Clist
| CEnum                                          (* [enum.Enum] *)
| CEnumClass (name : string)                     (* a subclass of [enum.Enum] *)
| CUser (name : string).

(** [type(obj).__mro__]. *)
Definition type_mro (obj : pyval) : list pyclass :=
  match obj with
  | VNone => [CNoneType; Cobject]
  | VBool _ => [Cbool; Cint; Cobject]
  | VInt _ => [Cint; Cobject]
  | VFloat _ => [Cfloat; Cobject]
  | VStr _ => [Cstr; Cobject]
  | VID _ => [CID; Cstr; Cobject]
  | VEnum cls _ => [CEnumClass cls; CEnum; Cobject]
  | VList _ => [Clist; Cobject]
  | VInstance _ mro => map CUser mro ++ [Cobject]
  | VStrSubclass _ mro _ => map CUser mro ++ [Cstr; Cobject]
  end.

(** ['{}'.format(type(obj))], which is [str(type(obj))]. *)
Definition type_text (obj : pyval) : string :=
  match obj with
  | VNone => "<class 'NoneType'>"
  | VBool _ => "<class 'bool'>"
  | VInt _ => "<class 'int'>"
  | VFloat _ => "<class 'float'>"
  | VStr _ => "<class 'str'>"
  | VID _ => "<class 'quiz.types.ID'>"
  | VEnum cls _ => "<enum '" ++ cls ++ "'>"
  | VList _ => "<class 'list'>"
  | VInstance class_text _ => class_text
  | VStrSubclass class_text _ _ => class_text
  end.

(** The default implementation, registered for [object]. *)
Definition cannot_serialize (obj : pyval) : result string :=
  Raise (TypeError ("cannot serialize to GraphQL: " ++ type_text obj)).

(** The implementations registered for the other classes.  [dispatch]
    gives each of them instances of its class only; their last case is
    not reached. *)

(** ['"{}"'.format], registered for [str]. *)
Definition quote_format (obj : pyval) : result string :=
  match obj with
  | VStr s | VID s | VStrSubclass _ _ s => Ok (dquote ++ s ++ dquote)%string
  | _ => cannot_serialize obj
  end.

(** [str], registered for [int]. *)
Definition int_str (obj : pyval) : result string :=
  match obj with
  | VInt z => Ok (str_of_int z)
  | VBool true => Ok "True"
  | VBool false => Ok "False"
  | _ => cannot_serialize obj
  end.

(** ['null'.format], registered for [NoneType]. *)
Definition null_format (obj : pyval) : result string := Ok "null".

(** [{True: 'true', False: 'false'}.__getitem__], registered for [bool]. *)
Definition bool_getitem (obj : pyval) : result string :=
  match obj with
  | VBool true => Ok "true"
  | VBool false => Ok "false"
  | _ => cannot_serialize obj
  end.

(** [_enum_to_gql], registered for [enum.Enum]: [obj.value]. *)
Definition _enum_to_gql (obj : pyval) : result string :=
  match obj with
  | VEnum _ m => Ok (member_value m)
  | _ => cannot_serialize obj
  end.

(** The registry of [argument_as_gql]. *)
Definition registry (c : pyclass) : option (pyval -> result string) :=
  match c with
  | Cobject => Some cannot_serialize
  | Cstr => Some quote_format
  | Cint => Some int_str
  | CNoneType => Some null_format
  | Cbool => Some bool_getitem
  | CEnum => Some _enum_to_gql
  | _ => None
  end.

(** [singledispatch]: the implementation registered for the first class of
    the method resolution order that has one. *)
Fixpoint dispatch (mro : list pyclass) : pyval -> result string :=
  match mro with
  | [] => cannot_serialize
  | c :: rest =>
      match registry c with
      | Some impl => impl
      | None => dispatch rest
      end
  end.

(** [argument_as_gql]. *)
Definition argument_as_gql (obj : pyval) : result string :=
  dispatch (type_mro obj) obj.

(** [[f(x) for x in l]], stopping at the first exception. *)
Definition map_result {A B} (f : A -> result B) : list A -> result (list B) :=
  fix loop (l : list A) : result (list B) :=
    match l with
    | [] => Ok []
    | x :: rest =>
        y <- f x ;;
        ys <- loop rest ;;
        Ok (y :: ys)
    end.

(** The code points below 256 at which [str.splitlines] ends a line: LF,
    VT, FF, CR, FS, GS, RS and NEL (U+0085). *)
Definition is_linebreak (c : ascii) : bool :=
  let n := nat_of_ascii c in
  ((10 <=? n) && (n <=? 13) || (28 <=? n) && (n <=? 30) || (n =? 133))%nat.

(** [str.isspace] on one code point below 256, which is also what
    [str.strip] removes: TAB, LF, VT, FF, CR, FS, GS, RS, US, the space,
    NEL (U+0085) and the no-break space (U+00A0). *)
Definition is_space (c : ascii) : bool :=
  let n := nat_of_ascii c in
  ((9 <=? n) && (n <=? 13) || (28 <=? n) && (n <=? 32)
   || (n =? 133) || (n =? 160))%nat.

(** [text.splitlines(True)]: the lines of [text], each with its line
    ending; CR LF ends one line.  [cur] is the line read so far. *)
Fixpoint splitlines_from (cur : string) (text : string) : list string :=
  match text with
  | EmptyString =>
      match cur with EmptyString => [] | _ => [cur] end
  | String c rest =>
      if Ascii.eqb c (ascii_of_nat 13) then
        match rest with
        | String c' rest' =>
            if Ascii.eqb c' (ascii_of_nat 10)
            then (cur ++ chr 13 ++ chr 10)%string :: splitlines_from EmptyString rest'
            else (cur ++ chr 13)%string :: splitlines_from EmptyString rest
        | EmptyString => [(cur ++ chr 13)%string]
        end
      else if is_linebreak c
      then (cur ++ String c EmptyString)%string :: splitlines_from EmptyString rest
      else splitlines_from (cur ++ String c EmptyString)%string rest
  end.

Definition splitlines_keepends (text : string) : list string :=
  splitlines_from EmptyString text.

(** [bool(line.strip())]: the line has a character that is not white
    space. *)
Fixpoint has_text (line : string) : bool :=
  match line with
  | EmptyString => false
  | String c rest => negb (is_space c) || has_text rest
  end.

(** [textwrap.indent(text, prefix)]. *)
Definition indent (text prefix : string) : string :=
  String.concat EmptyString
    (map (fun line => if has_text line then (prefix ++ line)%string else line)
         (splitlines_keepends text)).

(** The argument list of [Field.__gql__]. *)
Definition format_kwarg (kv : string * pyval) : result string :=
  literal <- argument_as_gql (snd kv) ;;
  Ok (fst kv ++ ": " ++ literal)%string.

Definition arguments_gql (kwargs : FrozenDict pyval) : result string :=
  match kwargs with
  | [] => Ok EmptyString
  | _ =>
      parts <- map_result format_kwarg kwargs ;;
      Ok ("(" ++ join ", " parts ++ ")")%string
  end.

(** [SelectionSet.__gql__], over the [__gql__] of its elements. *)
Definition SelectionSet_gql_with (gql : Selection -> result string)
    (selections : list Selection) : result string :=
  match selections with
  | [] => Ok EmptyString
  | _ =>
      lines <- map_result (fun f => text <- gql f ;; Ok (indent text INDENT))
                          selections ;;
      Ok ("{" ++ newline ++ join newline lines ++ newline ++ "}")%string
  end.

(** [gql = methodcaller("__gql__")] on a selection: [Field.__gql__] and
    [InlineFragment.__gql__]. *)
Fixpoint gql (s : Selection) : result string :=
  match s with
  | Field name kwargs selection_set =>
      arguments <- arguments_gql kwargs ;;
      selection_set_text <-
        match selection_set with
        | [] => Ok EmptyString
        | _ =>
            block <- SelectionSet_gql_with gql selection_set ;;
            Ok (" " ++ block)%string
        end ;;
      Ok (name ++ arguments ++ selection_set_text)%string
  | InlineFragment on selection_set =>
      block <- SelectionSet_gql_with gql selection_set ;;
      Ok ("... on " ++ type_name on ++ " " ++ block)%string
  end.

(** [SelectionSet.__gql__]. *)
Definition SelectionSet_gql (self : SelectionSet) : result string :=
  SelectionSet_gql_with gql self.

Definition OperationType_value (t : OperationType) : string :=
  match t with
  | QUERY => "query"
  | MUTATION => "mutation"
  | SUBSCRIPTION => "subscription"
  end.

(** [Operation.__gql__]. *)
Definition Operation_gql (op : Operation) : result string :=
  block <- SelectionSet_gql (op_selection_set op) ;;
  Ok (OperationType_value (op_type op) ++ " " ++ block)%string.

(** ** Class objects and the wrapper constructors *)

(** The identity of a class object: a class bound to a name when its
    module is loaded, or the [serial]-th class made at run time by a call
    of [type(name, bases, namespace)]. *)
Inductive ClassId : Type :=
| Declared (name : string)
| Created (serial : nat).

(** A class object: its identity together with what it describes. *)
Inductive ClassObj : Type :=
| CDeclared (t : pytype)
| CList (serial : nat) (arg : ClassObj)          (* made by [List[arg]] *)
| CNullable (serial : nat) (arg : ClassObj).     (* made by [Nullable[arg]] *)

Definition class_id (c : ClassObj) : ClassId :=
  match c with
  | CDeclared t => Declared (type_name t)
  | CList n _ => Created n
  | CNullable n _ => Created n
  end.




Definition ClassId_eqb (a b : ClassId) : bool :=
  match a, b with
  | Declared x, Declared y => String.eqb x y
  | Created m, Created n => Nat.eqb m n
  | _, _ => false
  end.

(** [a == b] on classes.  Neither [ListMeta] nor [NullableMeta] defines
    [__eq__], so this is [object.__eq__]: the two are the same object. *)
Definition class_eq (a b : ClassObj) : bool :=
  ClassId_eqb (class_id a) (class_id b).



(** ** Vocabulary of the specification *)

(** A supplied argument name the field does not declare. *)
Definition unknown_argument (field : FieldSchema) (kwargs : FrozenDict pyval)
    (name : string) : Prop :=
  In name (keys kwargs) /\ ~ In name (keys (fs_args field)).

Definition all_known (field : FieldSchema) (kwargs : FrozenDict pyval) : Prop :=
  forall name, In name (keys kwargs) -> In name (keys (fs_args field)).

(** A declared argument whose type is not Nullable-wrapped and that is not
    supplied. *)
Definition missing_required (kwargs : FrozenDict pyval) (param : InputValue)
  : bool :=
  match dict_get kwargs (iv_name param) with
  | None => negb (issubclass_Nullable (iv_type param))
  | Some _ => false
  end.

(** A declared argument supplied with a value that fails the membership
    test of its type. *)
Definition ill_typed (kwargs : FrozenDict pyval) (param : InputValue) : bool :=
  match dict_get kwargs (iv_name param) with
  | None => false
  | Some value => negb (isinstance value (iv_type param))
  end.

Definition violates (kwargs : FrozenDict pyval) (param : InputValue) : bool :=
  missing_required kwargs param || ill_typed kwargs param.

(** The three error rules of argument validation read each on its own,
    whatever else is wrong with the arguments. *)
Definition unknown_rule (sp : SetPop) : Prop :=
  forall cls field kwargs name,
    unknown_argument field kwargs name ->
    exists n, _check_args sp cls field kwargs = Raise (NoSuchArgument cls field n).

Definition missing_rule (sp : SetPop) : Prop :=
  forall cls field kwargs param,
    In param (values (fs_args field)) ->
    missing_required kwargs param = true ->
    exists n, _check_args sp cls field kwargs
              = Raise (MissingArgument cls field n).

Definition ill_typed_rule (sp : SetPop) : Prop :=
  forall cls field kwargs param,
    In param (values (fs_args field)) ->
    ill_typed kwargs param = true ->
    exists n value, _check_args sp cls field kwargs
                    = Raise (InvalidArgumentType cls field n value).

(** Scalars and enums: the types that cannot carry a sub-selection. *)
Definition is_scalar_or_enum (t : pytype) : bool :=
  match t with
  | TBool | TInt | TFloat | TStr | TID | TEnum _ _ => true
  | _ => false
  end.

(** [t] is [inner] under zero or more [List] and [Nullable] wrappers. *)
Inductive wraps (inner : pytype) : pytype -> Prop :=
| wraps_here : wraps inner inner
| wraps_list t : wraps inner t -> wraps inner (TList t)
| wraps_nullable t : wraps inner t -> wraps inner (TNullable t).

Definition is_wrapper (t : pytype) : bool :=
  issubclass_List t || issubclass_Nullable t.

(** [selection.selection_set]. *)
Definition selection_set_of (s : Selection) : SelectionSet :=
  match s with
  | Field _ _ ss => ss
  | InlineFragment _ ss => ss
  end.

(** [made] is a new object of [st'] that holds [selections], and every
    object of [st] is in [st'] as it was. *)
Definition new_object (st : Store) (made : nat) (st' : Store)
    (selections : SelectionSet) : Prop :=
  selections_of st made = None
  /\ selections_of st' made = Some selections
  /\ forall r s, selections_of st r = Some s -> selections_of st' r = Some s.

(** *** The layout of a serialized field, after the specification *)

(** A string without a line-ending character. *)
Fixpoint one_line (s : string) : bool :=
  match s with
  | EmptyString => true
  | String c rest => negb (is_linebreak c) && one_line rest
  end.

(** The literal of a supported argument value. *)
Definition literal_text (v : pyval) : string :=
  match v with
  | VStr s | VID s | VStrSubclass _ _ s => dquote ++ s ++ dquote
  | VInt z => str_of_int z
  | VBool true => "true"
  | VBool false => "false"
  | VNone => "null"
  | VEnum _ m => member_value m
  | _ => EmptyString
  end.

(** One argument, [name: literal]. *)
Definition kwarg_text (kv : string * pyval) : string :=
  fst kv ++ ": " ++ literal_text (snd kv).

(** The parenthesized, comma-separated list of the arguments; nothing when
    there are none. *)
Definition argument_list (kwargs : FrozenDict pyval) : string :=
  match kwargs with
  | [] => EmptyString
  | _ => "(" ++ join ", " (map kwarg_text kwargs) ++ ")"
  end.

(** Two spaces per nesting level. *)
Fixpoint spaces (depth : nat) : string :=
  match depth with
  | O => EmptyString
  | S d => INDENT ++ spaces d
  end.

(** The lines of a selection at nesting level [depth]: a field is one
    line, its name and arguments; with a sub-selection that line ends
    with a space and an opening brace, each child follows on lines of its
    own one level deeper, and a closing brace ends the block. *)
Fixpoint layout (depth : nat) (s : Selection) : list string :=
  match s with
  | Field name kwargs selection_set =>
      match selection_set with
      | [] => [(spaces depth ++ name ++ argument_list kwargs)%string]
      | _ =>
          (spaces depth ++ name ++ argument_list kwargs ++ " {")%string
            :: flat_map (layout (S depth)) selection_set
            ++ [(spaces depth ++ "}")%string]
      end
  | InlineFragment on selection_set =>
      match selection_set with
      | [] => [(spaces depth ++ "... on " ++ type_name on ++ " ")%string]
      | _ =>
          (spaces depth ++ "... on " ++ type_name on ++ " {")%string
            :: flat_map (layout (S depth)) selection_set
            ++ [(spaces depth ++ "}")%string]
      end
  end.

(** An argument value that has a literal taking one line. *)
Definition literal_ok (v : pyval) : bool :=
  match v with
  | VStr s | VID s | VStrSubclass _ _ s => one_line s
  | VInt _ | VBool _ | VNone => true
  | VEnum _ m => one_line (member_value m)
  | _ => false
  end.

Definition kwarg_ok (kv : string * pyval) : bool :=
  one_line (fst kv) && literal_ok (snd kv).

(** A line of text: no line ending inside, and not blank. *)
Definition text_line (l : string) : Prop :=
  one_line l = true /\ has_text l = true.

(** A selection whose names and argument literals each take one line, with
    field names that are not blank. *)
Fixpoint tidy (s : Selection) : bool :=
  match s with
  | Field name kwargs selection_set =>
      one_line name && has_text name
      && forallb kwarg_ok kwargs
      && forallb tidy selection_set
  | InlineFragment on selection_set =>
      one_line (type_name on) && forallb tidy selection_set
  end.

(** ** Example data *)

(** A [set.pop] that returns the first element. *)
Definition pop_first : SetPop :=
  {| pop := fun x _ => x; pop_member := fun x l => or_introl eq_refl |}.

Definition SIT : EnumMember := mkEnumMember "SIT" "SIT".
Definition DOWN : EnumMember := mkEnumMember "DOWN" "DOWN".
Definition Command : pytype := TEnum "Command" [SIT; DOWN].

Definition mkfield (name : string) (type : pytype)
    (args : FrozenDict InputValue) : FieldSchema :=
  mkFieldSchema name EmptyString type args false None.

Definition Human : pytype := TClass "Human".
Definition Dog : pytype := TClass "Dog".

Definition Dog_knows_command : FieldSchema :=
  mkfield "knows_command" TBool
    [("command", mkInputValue "command" "the command" Command)].

Definition Dog_is_housetrained : FieldSchema :=
  mkfield "is_housetrained" TBool
    [("at_other_homes",
      mkInputValue "at_other_homes" EmptyString (TNullable TBool))].

(** An enum member whose value is not its name, as in
    [Enum('Command', {'SIT': 'sit'})]. *)
Definition SIT_lower : EnumMember := mkEnumMember "SIT" "sit".

(** The field of [test_selection_set]. *)
Definition test_nested_field : Selection :=
  Field "bla" [("q", VInt 9)]
    [Field "blabla" [] [];
     Field "foobar" [("qux", VStr "another string")] [];
     Field "other" [] [Field "baz" [] []]].

(** The selection set of [test_valid]. *)
Definition test_valid_selection : SelectionSet :=
  [Field "name" [] []; Field "bark_volume" [] [];
   Field "knows_command" [("command", VEnum "Command" SIT)] [];
   Field "is_housetrained" [] [];
   Field "owner" [] [Field "name" [] []]].

(** A field with two required arguments, [resize(width: Int!, height: Int!)]. *)
Definition Image : pytype := TClass "Image".

Definition Image_resize : FieldSchema :=
  mkfield "resize" Image
    [("width", mkInputValue "width" EmptyString TInt);
     ("height", mkInputValue "height" EmptyString TInt)].

(** Some of the attributes that the classes of Python have and that are
    not fields: what every class has, methods of [str] and [int], the
    members of an enum, [register] of the classes made with [ABCMeta]. *)
Definition python_attribute (t : pytype) (name : string) : bool :=
  mem name ["mro"; "__name__"; "__doc__"]
  || match t with
     | TStr | TID => mem name ["upper"; "lower"; "format"]
     | TInt | TBool => mem name ["bit_length"]
     | TEnum _ members => mem name (map member_name members)
     | TClass _ => mem name ["register"]
     | TList _ | TNullable _ => mem name ["__arg__"]
     | TUnion _ _ => mem name ["__args__"]
     | _ => false
     end.

(** Classes as in the test module, [Human], [Dog] and a [Query] with the
    field [dog]; [Dog] has one more field, of a wrapped type. *)
Definition test_classes : ClassTable :=
  mkClassTable
    [("Human", [("name", mkfield "name" TStr [])]);
     ("Dog", [("name", mkfield "name" TStr []);
              ("is_housetrained", Dog_is_housetrained);
              ("bark_volume", mkfield "bark_volume" TInt []);
              ("knows_command", Dog_knows_command);
              ("owner", mkfield "owner" Human []);
              ("friends", mkfield "friends" (TNullable (TList Human)) [])]);
     ("Query", [("dog", mkfield "dog" Dog [])])]
    python_attribute.

(** Some of the names every object has. *)
Definition object_names (name : string) : bool :=
  mem name ["__class__"; "__doc__"; "__module__"; "__init_subclass__";
            "__subclasshook__"; "__dir__"; "__sizeof__"].

(** ** Vocabulary of further properties *)

(** A selection without an inline fragment at any depth. *)
Fixpoint fragment_free (s : Selection) : bool :=
  match s with
  | Field _ _ selection_set => forallb fragment_free selection_set
  | InlineFragment _ _ => false
  end.

(** Two errors that differ at most in which undeclared argument name a
    [NoSuchArgument] carries. *)
Definition same_error (e e' : Error) : Prop :=
  match e, e' with
  | NoSuchArgument on field _, NoSuchArgument on' field' _ =>
      on = on' /\ field = field'
  | _, _ => e = e'
  end.

(** Two outcomes that are the same value, or the same error in that
    sense. *)
Definition same_verdict {A} (a b : result A) : Prop :=
  match a, b with
  | Ok x, Ok y => x = y
  | Raise e, Raise e' => same_error e e'
  | _, _ => False
  end.

(** [for x in l: acc = f(x, acc)], as long as [f] gives a value. *)
Definition fold_option {A S} (f : A -> S -> option S)
  : list A -> S -> option S :=
  fix loop (l : list A) (acc : S) : option S :=
    match l with
    | [] => Some acc
    | x :: rest =>
        match f x acc with
        | Some acc' => loop rest acc'
        | None => None
        end
    end.

Definition returned {A} (r : result A) : option A :=
  match r with Ok a => Some a | Raise _ => None end.

(** Writing a selection with the builder, after the set [acc]: the field
    by the attribute access [acc.name], its arguments by a call with them
    as keywords, and its sub-selection, itself written from the empty
    [selector], by the bracket operation.  [None]: the expression does not
    give a selection set: the attribute access finds an attribute of the
    class, the interpreter refuses the keyword [self], a builder method
    raises; and no builder operation makes an inline fragment. *)
Fixpoint write (inherited : string -> bool) (s : Selection)
    (acc : SelectionSet) : option SelectionSet :=
  match s with
  | Field name kwargs nested =>
      match SelectionSet_attribute inherited acc name with
      | None => None
      | Some added =>
          if mem "self" (keys kwargs) then None
          else
            match returned (SelectionSet_call added kwargs) with
            | None => None
            | Some called =>
                match nested with
                | [] => Some called
                | _ =>
                    match fold_option (write inherited) nested selector with
                    | Some child => returned (SelectionSet_getitem called child)
                    | None => None
                    end
                end
            end
      end
  | InlineFragment _ _ => None
  end.

(** A selection the builder can write: fields only, under names that
    attribute access hands to [__getattr__], with no keyword named
    [self]. *)
Fixpoint writable (inherited : string -> bool) (s : Selection) : bool :=
  match s with
  | Field name kwargs nested =>
      negb (found_by_lookup inherited name)
      && negb (mem "self" (keys kwargs))
      && forallb (writable inherited) nested
  | InlineFragment _ _ => false
  end.

(** The argument values [argument_as_gql] has an implementation for:
    all but floats, lists and the instances of user classes that derive
    from [object] only. *)
Definition supported (v : pyval) : bool :=
  match v with
  | VFloat _ | VList _ | VInstance _ _ => false
  | _ => true
  end.

(** Some argument value of the selection, at some depth, is not
    supported. *)
Fixpoint has_unsupported (s : Selection) : bool :=
  match s with
  | Field _ kwargs selection_set =>
      existsb (fun kv => negb (supported (snd kv))) kwargs
      || existsb has_unsupported selection_set
  | InlineFragment _ selection_set => existsb has_unsupported selection_set
  end.

Definition is_ok {A} (r : result A) : bool :=
  match r with Ok _ => true | Raise _ => false end.

(** The [TypeError] of the default implementation of [argument_as_gql]. *)
Definition cannot_serialize_error (obj : pyval) : Error :=
  TypeError ("cannot serialize to GraphQL: " ++ type_text obj).

(** The lines of a block: the braces around the lines of the selections,
    one level deep, after [head] on the first line. *)
Definition block_layout (head : string) (selections : list Selection)
  : list string :=
  (head ++ "{")%string :: flat_map (layout 1) selections ++ ["}"].

(** A character of a name: not white space and not a brace. *)
Definition name_char (c : ascii) : bool :=
  negb (is_space c)
  && negb (Ascii.eqb c (ascii_of_nat 123))
  && negb (Ascii.eqb c (ascii_of_nat 125)).

Fixpoint name_chars (s : string) : bool :=
  match s with
  | EmptyString => true
  | String c rest => name_char c && name_chars rest
  end.

(** A name that is not empty and has neither white space nor braces. *)
Definition plain_name (s : string) : bool :=
  match s with
  | EmptyString => false
  | _ => name_chars s
  end.

(** A tree of fields with plain names and no arguments. *)
Fixpoint plain (s : Selection) : bool :=
  match s with
  | Field name kwargs selection_set =>
      plain_name name
      && match kwargs with [] => true | _ => false end
      && forallb plain selection_set
  | InlineFragment _ _ => false
  end.

(** ** Execution: the HTTP middleware (quiz/execution.py) *)

(** What [json.loads] returns. *)
Inductive JSON : Type :=
| JNull
| JBool (b : bool)
| JInt (z : Z)
| JFloat (bits : Z)
| JString (s : string)
| JArray (items : list JSON)
| JObject (members : FrozenDict JSON).

(** [snug.Request] and [snug.Response]; contents are bytes. *)
Record Request := mkRequest {
  req_method : string;
  req_url : string;
  req_content : string;
  req_headers : FrozenDict string
}.

Record Response := mkResponse {
  status_code : Z;
  resp_content : string;
  resp_headers : FrozenDict string
}.

Record QueryMetadata := mkQueryMetadata {
  meta_response : Response;
  meta_request : Request
}.

Record RawResult := mkRawResult {
  raw_inner : JSON;
  raw_metadata : QueryMetadata
}.

(** The fields [ErrorResponse] declares in [__fields__]. *)
Record ErrorResponseFields := mkErrorResponse {
  er_data : JSON;
  er_errors : JSON
}.

(** The exceptions that leave [middleware]. *)
Inductive Exception : Type :=
| HTTPError (response : Response) (request : Request)
| ErrorResponse (fields : ErrorResponseFields)
| KeyError (key : string)
| PyTypeError
| PyAttributeError
| DecodeError (reason : string).

Inductive outcome (A : Type) : Type :=
| Returned (a : A)
| Raised (e : Exception).
Arguments Returned {A} a.
Arguments Raised {A} e.

(** [key in content]: a key of a dict, an element of a list, a substring
    of a string; the other values are not iterable. *)
Definition json_contains (key : string) (content : JSON) : outcome bool :=
  match content with
  | JObject members => Returned (mem key (keys members))
  | JArray items =>
      Returned (existsb (fun x => match x with
                                  | JString s => String.eqb s key
                                  | _ => false
                                  end) items)
  | JString s =>
      Returned (match String.index 0 key s with Some _ => true | None => false end)
  | _ => Raised PyTypeError
  end.

(** [d.setdefault(key, default)], as the dict afterwards. *)
Definition setdefault (d : FrozenDict JSON) (key : string) (default : JSON)
  : FrozenDict JSON :=
  match dict_get d key with
  | Some _ => d
  | None => d ++ [(key, default)]
  end.

Section Middleware.

(** [json.dumps({'query': query_str}).encode('ascii')]. *)
Variable dumps_query : string -> string.

(** [json.loads(content.decode('utf-8'))]. *)
Variable loads : string -> outcome JSON.

(** The constructor of [ErrorResponse], called with the members of a dict
    as its keywords.  It is the [__init__] of [ValueObject] (quiz/utils.py,
    not among the sources): it returns the exception, or raises. *)
Variable ErrorResponse_init : FrozenDict JSON -> outcome ErrorResponseFields.

(** [raise ErrorResponse(...)] with the members of [content] as
    keywords. *)
Definition raise_ErrorResponse {A} (content : FrozenDict JSON) : outcome A :=
  match ErrorResponse_init content with
  | Returned fields => Raised (ErrorResponse fields)
  | Raised e => Raised e
  end.

(** The request [middleware] yields first. *)
Definition middleware_request (url query_str : string) : Request :=
  mkRequest "POST" url (dumps_query query_str)
            [("Content-Type", "application/json")].

(** [middleware] after the response has been sent in. *)
Definition middleware_resume (request : Request) (response : Response)
  : outcome RawResult :=
  if (400 <=? status_code response)%Z
  then Raised (HTTPError response request)
  else
    match loads (resp_content response) with
    | Raised e => Raised e
    | Returned content =>
        match json_contains "errors" content with
        | Raised e => Raised e
        | Returned true =>
            match content with
            | JObject members =>
                raise_ErrorResponse (setdefault members "data" (JObject []))
            | _ => Raised PyAttributeError
            end
        | Returned false =>
            match content with
            | JObject members =>
                match dict_get members "data" with
                | Some data =>
                    Returned (mkRawResult data
                                (mkQueryMetadata response request))
                | None => Raised (KeyError "data")
                end
            | _ => Raised PyTypeError
            end
        end
    end.

(** [middleware]: the request it yields, and what it does with the
    response. *)
Definition middleware (url query_str : string)
  : Request * (Response -> outcome RawResult) :=
  let request := middleware_request url query_str in
  (request, middleware_resume request).

End Middleware.

(** An example of a constructor: it takes the declared fields as keywords
    and refuses any other keyword. *)
Definition declared_fields_only (content : FrozenDict JSON)
  : outcome ErrorResponseFields :=
  match dict_get content "data", dict_get content "errors" with
  | Some data, Some errors =>
      if forallb (fun k => mem k ["data"; "errors"]) (keys content)
      then Returned (mkErrorResponse data errors)
      else Raised PyTypeError
  | _, _ => Raised PyTypeError
  end.

(** * Properties *)

(** ** Lists, sets and loops *)

Lemma mem_In (x : string) (l : list string) : mem x l = true <-> In x l.
Proof.
  unfold mem. rewrite existsb_exists. split.
  - intros [y [Hy Heq]]. apply String.eqb_eq in Heq. now subst.
  - intros H. exists x. split; [assumption | apply String.eqb_refl].
Qed.

Lemma mem_not_In (x : string) (l : list string) : mem x l = false <-> ~ In x l.
Proof.
  rewrite <- mem_In. destruct (mem x l); split; congruence.
Qed.

Lemma set_difference_In (a b : list string) (n : string) :
  In n (set_difference a b) <-> In n a /\ ~ In n b.
Proof.
  unfold set_difference. rewrite filter_In, negb_true_iff, mem_not_In.
  reflexivity.
Qed.

Lemma set_difference_nil (a b : list string) :
  set_difference a b = [] <-> (forall n, In n a -> In n b).
Proof.
  split.
  - intros Hnil n Hn.
    destruct (mem n b) eqn:Hm; [now apply mem_In |].
    assert (Hin : In n (set_difference a b)).
    { apply set_difference_In. split; [assumption | now apply mem_not_In]. }
    rewrite Hnil in Hin. contradiction.
  - intros Hall. destruct (set_difference a b) as [| x l] eqn:Hd; [reflexivity |].
    assert (Hin : In x (set_difference a b)) by (rewrite Hd; now left).
    apply set_difference_In in Hin. destruct Hin as [Ha Hb].
    exfalso. apply Hb. now apply Hall.
Qed.

Lemma for_each_all_ok {A} (f : A -> result unit) (l : list A) :
  for_each f l = Ok tt <-> (forall x, In x l -> f x = Ok tt).
Proof.
  induction l as [| a l IH]; simpl.
  - split; [intros _ x [] | reflexivity].
  - destruct (f a) as [[] | e] eqn:Hfa; simpl.
    + rewrite IH. split.
      * intros H x [<- | Hx]; [assumption | now apply H].
      * intros H x Hx. apply H. now right.
    + split; [discriminate |].
      intros H. specialize (H a (or_introl eq_refl)). congruence.
Qed.

Lemma for_each_first_failure {A} (f : A -> result unit)
    (before : list A) (x : A) (after : list A) (e : Error) :
  (forall y, In y before -> f y = Ok tt) ->
  f x = Raise e ->
  for_each f (before ++ x :: after) = Raise e.
Proof.
  intros Hbefore Hx. induction before as [| b before IH]; simpl.
  - now rewrite Hx.
  - rewrite (Hbefore b (or_introl eq_refl)). simpl.
    apply IH. intros y Hy. apply Hbefore. now right.
Qed.

(** ** Argument validation *)

Section ArgumentValidation.

Variable set_pop : SetPop.

Lemma check_param_ok cls field kwargs param :
  check_param cls field kwargs param = Ok tt <-> violates kwargs param = false.
Proof.
  unfold check_param, violates, missing_required, ill_typed.
  destruct (dict_get kwargs (iv_name param)) as [value |].
  - destruct (isinstance value (iv_type param)); simpl; split;
      congruence.
  - destruct (issubclass_Nullable (iv_type param)); simpl; split;
      congruence.
Qed.

Lemma check_param_missing cls field kwargs param :
  missing_required kwargs param = true ->
  check_param cls field kwargs param
  = Raise (MissingArgument cls field (iv_name param)).
Proof.
  unfold check_param, missing_required.
  destruct (dict_get kwargs (iv_name param)); [discriminate |].
  now intros ->.
Qed.

Lemma check_param_ill_typed cls field kwargs param value :
  dict_get kwargs (iv_name param) = Some value ->
  isinstance value (iv_type param) = false ->
  check_param cls field kwargs param
  = Raise (InvalidArgumentType cls field (iv_name param) value).
Proof.
  unfold check_param. now intros -> ->.
Qed.

(** An argument name the field does not declare is reported before
    anything else is looked at. *)
Lemma check_args_unknown cls field kwargs name :
  unknown_argument field kwargs name ->
  exists n, unknown_argument field kwargs n /\
            _check_args set_pop cls field kwargs
            = Raise (NoSuchArgument cls field n).
Proof.
  intros [Hsupplied Hundeclared]. unfold _check_args.
  destruct (set_difference (keys kwargs) (keys (fs_args field)))
    as [| x others] eqn:Hdiff.
  - exfalso. apply Hundeclared.
    now apply (proj1 (set_difference_nil _ _) Hdiff).
  - exists (pop set_pop x others). split; [| reflexivity].
    apply set_difference_In. rewrite Hdiff. apply pop_member.
Qed.

Lemma check_args_known cls field kwargs :
  all_known field kwargs ->
  _check_args set_pop cls field kwargs
  = for_each (check_param cls field kwargs) (values (fs_args field)).
Proof.
  intros Hknown. unfold _check_args.
  now rewrite (proj2 (set_difference_nil _ _) Hknown).
Qed.

Lemma check_args_ok_known cls field kwargs :
  _check_args set_pop cls field kwargs = Ok tt -> all_known field kwargs.
Proof.
  unfold _check_args.
  destruct (set_difference (keys kwargs) (keys (fs_args field))) eqn:Hdiff;
    [| discriminate].
  intros _. exact (proj1 (set_difference_nil _ _) Hdiff).
Qed.

End ArgumentValidation.

(** C1, as amended.  [_check_args] reports the first rule that is broken,
    in this order.  If a supplied name is not declared on the field, it
    raises [NoSuchArgument] for one such name.  Otherwise it visits the
    declared arguments in the order of the field's mapping, and at the
    first that breaks a rule it raises [MissingArgument] when that
    argument is not Nullable-wrapped and not supplied, and
    [InvalidArgumentType] with the supplied value when the value fails the
    membership test of the declared type.  It returns without error
    exactly when every supplied name is declared and no declared argument
    breaks a rule. *)
Theorem check_args_first_violation (sp : SetPop) (cls : pytype)
    (field : FieldSchema) (kwargs : FrozenDict pyval) :
  (forall name, unknown_argument field kwargs name ->
     exists n, unknown_argument field kwargs n /\
       _check_args sp cls field kwargs = Raise (NoSuchArgument cls field n))
  /\
  (all_known field kwargs ->
   forall before param after,
     values (fs_args field) = before ++ param :: after ->
     (forall q, In q before -> violates kwargs q = false) ->
     (missing_required kwargs param = true ->
        _check_args sp cls field kwargs
        = Raise (MissingArgument cls field (iv_name param)))
     /\
     (forall value,
        dict_get kwargs (iv_name param) = Some value ->
        isinstance value (iv_type param) = false ->
        _check_args sp cls field kwargs
        = Raise (InvalidArgumentType cls field (iv_name param) value)))
  /\
  (_check_args sp cls field kwargs = Ok tt <->
   all_known field kwargs /\
   forall p, In p (values (fs_args field)) -> violates kwargs p = false).
Proof.
  split; [| split].
  - apply check_args_unknown.
  - intros Hknown before param after Hsplit Hbefore.
    rewrite (check_args_known sp cls field kwargs Hknown), Hsplit.
    assert (Hok : forall y, In y before ->
                            check_param cls field kwargs y = Ok tt).
    { intros y Hy. apply check_param_ok. now apply Hbefore. }
    split.
    + intros Hmissing. apply for_each_first_failure; [assumption |].
      now apply check_param_missing.
    + intros value Hget Hinst. apply for_each_first_failure; [assumption |].
      now apply check_param_ill_typed.
  - split.
    + intros Hres. pose proof (check_args_ok_known sp _ _ _ Hres) as Hknown.
      split; [assumption |].
      rewrite (check_args_known sp cls field kwargs Hknown) in Hres.
      intros p Hp. apply (check_param_ok cls field).
      now apply (proj1 (for_each_all_ok _ _) Hres).
    + intros [Hknown Hall].
      rewrite (check_args_known sp cls field kwargs Hknown).
      apply for_each_all_ok. intros p Hp. apply check_param_ok. now apply Hall.
Qed.

Lemma all_known_decide (field : FieldSchema) (kwargs : FrozenDict pyval) :
  set_difference (keys kwargs) (keys (fs_args field)) = [] ->
  all_known field kwargs.
Proof. intros H. exact (proj1 (set_difference_nil _ _) H). Qed.

(** [resize(width="wide")]: the first declared argument is ill-typed and
    the second, required, is missing; the first is reported. *)
Lemma check_args_first_violation_witness :
  _check_args pop_first Image Image_resize [("width", VStr "wide")]
  = Raise (InvalidArgumentType Image Image_resize "width" (VStr "wide"))
  /\
  _check_args pop_first Image Image_resize [("width", VInt 3)]
  = Raise (MissingArgument Image Image_resize "height").
Proof.
  split.
  - refine (proj2 (proj1 (proj2
      (check_args_first_violation pop_first Image Image_resize
         [("width", VStr "wide")])) _
      [] (mkInputValue "width" EmptyString TInt)
      [mkInputValue "height" EmptyString TInt] eq_refl _) (VStr "wide") eq_refl eq_refl).
    + apply all_known_decide. reflexivity.
    + intros q [].
  - refine (proj1 (proj1 (proj2
      (check_args_first_violation pop_first Image Image_resize
         [("width", VInt 3)])) _
      [mkInputValue "width" EmptyString TInt]
      (mkInputValue "height" EmptyString TInt) [] eq_refl _) eq_refl).
    + apply all_known_decide. reflexivity.
    + intros q [<- | []]. reflexivity.
Defined.

(** C1, as stated: the rule for a missing argument does not hold on its
    own.  In [resize(width="wide")] the required [height] is not supplied,
    and the error is [InvalidArgumentType] for [width]. *)
Lemma check_args_rules_not_independent :
  ~ (forall sp, unknown_rule sp /\ missing_rule sp /\ ill_typed_rule sp).
Proof.
  intros H. destruct (H pop_first) as [_ [Hmissing _]].
  specialize (Hmissing Image Image_resize [("width", VStr "wide")]
                (mkInputValue "height" EmptyString TInt)).
  destruct (Hmissing (or_intror (or_introl eq_refl)) eq_refl) as [n Hn].
  discriminate Hn.
Qed.

(** With an undeclared name next to a missing required argument, the
    undeclared name is reported: the missing-argument rule fails there
    too. *)
Example check_args_unknown_before_missing :
  _check_args pop_first Dog Dog_knows_command [("foo", VInt 4)]
  = Raise (NoSuchArgument Dog Dog_knows_command "foo").
Proof. reflexivity. Qed.

(** C10.  When the supplied arguments contain a name the field does not
    declare and, at the same time, a declared argument is missing though
    required or is supplied with an ill-typed value, [_check_args] raises
    [NoSuchArgument] for an undeclared name: the check for undeclared
    names is done before any declared argument is looked at. *)
Theorem unknown_argument_reported_first (sp : SetPop) (cls : pytype)
    (field : FieldSchema) (kwargs : FrozenDict pyval) :
  (exists name, unknown_argument field kwargs name) ->
  (exists param, In param (values (fs_args field)) /\
                 violates kwargs param = true) ->
  exists n, unknown_argument field kwargs n /\
    _check_args sp cls field kwargs = Raise (NoSuchArgument cls field n).
Proof.
  intros [name Hunknown] _. now apply (check_args_unknown sp cls field kwargs name).
Qed.

Lemma unknown_argument_reported_first_witness :
  exists n,
    unknown_argument Image_resize [("depth", VInt 1); ("width", VStr "wide")] n /\
    _check_args pop_first Image Image_resize
      [("depth", VInt 1); ("width", VStr "wide")]
    = Raise (NoSuchArgument Image Image_resize n).
Proof.
  apply (unknown_argument_reported_first pop_first Image Image_resize
           [("depth", VInt 1); ("width", VStr "wide")]).
  - exists "depth". split; [simpl; auto |].
    simpl. intros [H | [H | []]]; discriminate H.
  - exists (mkInputValue "width" EmptyString TInt). split; [simpl; auto | reflexivity].
Defined.

(** ** Field validation *)

Lemma unwrap_wraps (t : pytype) : wraps (_unwrap_list_or_nullable t) t.
Proof.
  induction t; simpl; try apply wraps_here.
  - now apply wraps_list.
  - now apply wraps_nullable.
Qed.

Lemma unwrap_not_wrapper (t : pytype) :
  is_wrapper (_unwrap_list_or_nullable t) = false.
Proof. induction t; simpl; auto. Qed.

Lemma unwrap_fixed (t : pytype) :
  is_wrapper t = false -> _unwrap_list_or_nullable t = t.
Proof. destruct t; simpl; intros H; try reflexivity; discriminate H. Qed.

(** X15.  [_unwrap_list_or_nullable] gives back the type under any stack
    of List and Nullable wrappers: when [t] is [inner] under such wrappers
    and [inner] is not one itself, the result for [t] is [inner]. *)
Lemma wraps_unwrap (inner t : pytype) :
  wraps inner t -> is_wrapper inner = false ->
  _unwrap_list_or_nullable t = inner.
Proof.
  intros Hw Hinner. induction Hw; simpl; auto using unwrap_fixed.
Qed.

Section FieldValidation.

Variable set_pop : SetPop.
Variable classes : ClassTable.

Lemma scalar_has_no_field (t : pytype) (name : string) :
  is_scalar_or_enum t = true -> declared_field classes t name = None.
Proof. destruct t; simpl; intros H; try reflexivity; discriminate H. Qed.

Lemma class_getattr_field parent name schema :
  class_getattr classes parent name = Some (AField schema)
  <-> declared_field classes parent name = Some schema.
Proof.
  unfold class_getattr.
  destruct (declared_field classes parent name) as [schema' |].
  - split; intros [= ->]; reflexivity.
  - destruct (other_attribute classes parent name); split; discriminate.
Qed.

Lemma check_field_eq parent name kwargs selection_set :
  _check_field set_pop classes parent (Field name kwargs selection_set)
  = match class_getattr classes parent name with
    | None => Raise (NoSuchField parent name)
    | Some AOther => Raise AttributeError
    | Some (AField schema) =>
        _check_args set_pop parent schema kwargs ;;;
        for_each (_check_field set_pop classes
                    (_unwrap_list_or_nullable (fs_type schema)))
                 selection_set
    end.
Proof. reflexivity. Qed.

Lemma check_field_other parent name kwargs selection_set :
  class_getattr classes parent name = Some AOther ->
  _check_field set_pop classes parent (Field name kwargs selection_set)
  = Raise AttributeError.
Proof. intros H. now rewrite check_field_eq, H. Qed.

Lemma check_field_absent parent name kwargs selection_set :
  class_getattr classes parent name = None ->
  _check_field set_pop classes parent (Field name kwargs selection_set)
  = Raise (NoSuchField parent name).
Proof. intros H. now rewrite check_field_eq, H. Qed.

(** The first sub-selection that fails decides the outcome of the field. *)
Lemma check_field_nested parent name kwargs schema
    before sub after e :
  class_getattr classes parent name = Some (AField schema) ->
  _check_args set_pop parent schema kwargs = Ok tt ->
  (forall f, In f before ->
     _check_field set_pop classes
       (_unwrap_list_or_nullable (fs_type schema)) f = Ok tt) ->
  _check_field set_pop classes
    (_unwrap_list_or_nullable (fs_type schema)) sub = Raise e ->
  _check_field set_pop classes parent
    (Field name kwargs (before ++ sub :: after))
  = Raise e.
Proof.
  intros Hschema Hargs Hbefore Hsub.
  rewrite check_field_eq, Hschema, Hargs. simpl.
  now apply for_each_first_failure.
Qed.

End FieldValidation.

(** C2.  For the selections nested under a field, the current type is
    the field's declared type with all its [List] and [Nullable] wrappers
    removed, and a name under which [getattr] finds nothing on the current
    type raises [NoSuchField] with the current type and that name.  But
    [getattr] also finds what the current type has besides fields - a
    method of a scalar such as [upper] of [str], a member of an enum,
    [mro] of a class: for such a name the look-up of the declared
    arguments raises [AttributeError] and no [NoSuchField] is raised, also
    for a sub-selection under a field whose unwrapped type is a scalar or
    an enum. *)
Theorem check_field_attribute_lookup (sp : SetPop) (classes : ClassTable) :
  (forall parent name kwargs selection_set,
     class_getattr classes parent name = None ->
     _check_field sp classes parent (Field name kwargs selection_set)
     = Raise (NoSuchField parent name))
  /\
  (forall parent name kwargs selection_set,
     class_getattr classes parent name = Some AOther ->
     _check_field sp classes parent (Field name kwargs selection_set)
     = Raise AttributeError)
  /\
  (forall parent name kwargs schema before sub sub_kwargs sub_selection after,
     class_getattr classes parent name = Some (AField schema) ->
     _check_args sp parent schema kwargs = Ok tt ->
     let current := _unwrap_list_or_nullable (fs_type schema) in
     (forall f, In f before -> _check_field sp classes current f = Ok tt) ->
     wraps current (fs_type schema) /\ is_wrapper current = false /\
     let nested :=
       Field name kwargs
         (before ++ Field sub sub_kwargs sub_selection :: after) in
     (class_getattr classes current sub = None ->
      _check_field sp classes parent nested = Raise (NoSuchField current sub))
     /\
     (class_getattr classes current sub = Some AOther ->
      _check_field sp classes parent nested = Raise AttributeError))
  /\
  (forall parent name kwargs schema sub sub_kwargs sub_selection others,
     class_getattr classes parent name = Some (AField schema) ->
     _check_args sp parent schema kwargs = Ok tt ->
     let current := _unwrap_list_or_nullable (fs_type schema) in
     is_scalar_or_enum current = true ->
     _check_field sp classes parent
       (Field name kwargs (Field sub sub_kwargs sub_selection :: others))
     = if other_attribute classes current sub
       then Raise AttributeError
       else Raise (NoSuchField current sub)).
Proof.
  split; [| split; [| split]].
  - apply check_field_absent.
  - apply check_field_other.
  - intros parent name kwargs schema before sub sub_kwargs sub_selection after
      Hschema Hargs current Hbefore.
    split; [apply unwrap_wraps |]. split; [apply unwrap_not_wrapper |].
    split; intros Hsub;
      apply (check_field_nested sp classes parent name kwargs schema);
      try assumption.
    + now apply check_field_absent.
    + now apply check_field_other.
  - intros parent name kwargs schema sub sub_kwargs sub_selection others
      Hschema Hargs current Hscalar.
    assert (Hsub : _check_field sp classes current
                     (Field sub sub_kwargs sub_selection)
                   = if other_attribute classes current sub
                     then Raise AttributeError
                     else Raise (NoSuchField current sub)).
    { rewrite check_field_eq. unfold class_getattr.
      rewrite (scalar_has_no_field classes _ sub Hscalar).
      now destruct (other_attribute classes current sub). }
    destruct (other_attribute classes current sub);
      apply (check_field_nested sp classes parent name kwargs schema []);
      try assumption; intros f [].
Qed.

(** [Dog[_.foo]] and [Dog[_.name[_.foo]]], where [name] is a [str], raise
    [NoSuchField]; [Dog[_.mro]], [Dog[_.friends[_.name.register]]], where
    [friends] is a [Nullable[List[Human]]], and [Dog[_.name[_.upper]]]
    raise [AttributeError]. *)
Lemma check_field_attribute_lookup_witness :
  _check_field pop_first test_classes Dog (Field "foo" [] [])
  = Raise (NoSuchField Dog "foo")
  /\
  _check_field pop_first test_classes Dog (Field "mro" [] [])
  = Raise AttributeError
  /\
  _check_field pop_first test_classes Dog
    (Field "friends" [] [Field "name" [] []; Field "register" [] []])
  = Raise AttributeError
  /\
  _check_field pop_first test_classes Dog
    (Field "name" [] [Field "foo" [] []])
  = Raise (NoSuchField TStr "foo")
  /\
  _check_field pop_first test_classes Dog
    (Field "name" [] [Field "upper" [] []])
  = Raise AttributeError.
Proof.
  pose proof (check_field_attribute_lookup pop_first test_classes)
    as [Habsent [Hother [Hnested Hscalar]]].
  split; [| split; [| split; [| split]]].
  - apply Habsent. reflexivity.
  - apply Hother. reflexivity.
  - apply (Hnested Dog "friends" []
             (mkfield "friends" (TNullable (TList Human)) [])
             [Field "name" [] []] "register" [] [] []).
    + reflexivity.
    + reflexivity.
    + intros f [<- | []]. reflexivity.
    + reflexivity.
  - apply (Hscalar Dog "name" [] (mkfield "name" TStr []) "foo" [] [] []);
      reflexivity.
  - apply (Hscalar Dog "name" [] (mkfield "name" TStr []) "upper" [] [] []);
      reflexivity.
Defined.

(** C3.  When validating [S] against [T] succeeds, the result is
    InlineFragment(T, S), or Operation(QUERY, S) for [query], with [S]
    as it was given; validating the selection set of the result against
    [T] again succeeds with the same result. *)
Theorem validation_keeps_selection_set (sp : SetPop) (classes : ClassTable)
    (T : pytype) (S : SelectionSet) :
  (forall fragment,
     ObjectMeta_getitem sp classes T S = Ok fragment ->
     fragment = InlineFragment T S /\
     ObjectMeta_getitem sp classes T (selection_set_of fragment) = Ok fragment)
  /\
  (forall operation,
     query sp classes S T = Ok operation ->
     operation = mkOperation QUERY S /\
     query sp classes (op_selection_set operation) T = Ok operation).
Proof.
  split.
  - intros fragment H. unfold ObjectMeta_getitem in *.
    destruct (for_each (_check_field sp classes T) S) as [[] | e] eqn:Hcheck;
      simpl in H; [| discriminate].
    injection H as <-. simpl. now rewrite Hcheck.
  - intros operation H. unfold query in *.
    destruct (for_each (_check_field sp classes T) S) as [[] | e] eqn:Hcheck;
      simpl in H; [| discriminate].
    injection H as <-. simpl. now rewrite Hcheck.
Qed.

(** The selection set of [test_valid], validated against [Dog], and
    [_.dog[_.name]] as a query. *)
Lemma validation_keeps_selection_set_witness :
  ObjectMeta_getitem pop_first test_classes Dog
    (selection_set_of (InlineFragment Dog test_valid_selection))
  = Ok (InlineFragment Dog test_valid_selection)
  /\
  query pop_first test_classes
    (op_selection_set (mkOperation QUERY [Field "dog" [] [Field "name" [] []]]))
    (TClass "Query")
  = Ok (mkOperation QUERY [Field "dog" [] [Field "name" [] []]]).
Proof.
  split.
  - apply (proj1 (validation_keeps_selection_set pop_first test_classes Dog
                    test_valid_selection)).
    reflexivity.
  - apply (proj2 (validation_keeps_selection_set pop_first test_classes
                    (TClass "Query") [Field "dog" [] [Field "name" [] []]])).
    reflexivity.
Defined.

(** ** The selection builder *)

Lemma unpack_last_snoc {A} (rest : list A) (x : A) :
  unpack_last (rest ++ [x]) = Some (rest, x).
Proof.
  induction rest as [| y rest IH]; simpl; [reflexivity |].
  rewrite IH. destruct (rest ++ [x]) eqn:E; [| reflexivity].
  now destruct rest.
Qed.

Lemma unpack_last_some {A} (l : list A) :
  l <> [] -> exists rest x, l = rest ++ [x].
Proof.
  intros H. destruct (exists_last H) as [rest [x ->]]. now exists rest, x.
Qed.

Lemma make_new_object (selections : SelectionSet) (st : Store) :
  new_object st (fst (_make selections st)) (snd (_make selections st))
             selections.
Proof.
  unfold new_object, selections_of, _make. cbn [fst snd].
  split; [| split].
  - now apply nth_error_None.
  - rewrite nth_error_app2 by apply Nat.le_refl.
    now rewrite Nat.sub_diag.
  - intros r s H. rewrite nth_error_app1; [assumption |].
    apply nth_error_Some. congruence.
Qed.

Lemma attribute_chain_appends (inherited : string -> bool)
    (names : list string) :
  forallb (fun n => negb (found_by_lookup inherited n)) names = true ->
  forall s,
    attribute_chain inherited s names = Some (s ++ map bare_field names).
Proof.
  induction names as [| n names IH]; intros Hnames s.
  - cbn. now rewrite app_nil_r.
  - cbn [forallb] in Hnames. apply andb_true_iff in Hnames as [Hn Hnames].
    apply negb_true_iff in Hn.
    cbn [attribute_chain]. unfold SelectionSet_attribute. rewrite Hn.
    rewrite (IH Hnames). unfold SelectionSet_getattr.
    now rewrite <- app_assoc.
Qed.

(** C4, as amended.  On a [SelectionSet] object [self] with the selections
    [s]: for a name [n] that normal attribute look-up does not find,
    [self.n] returns a new object whose selections are those of [s]
    followed by [Field(n)] with no arguments and no nested set, one
    element when [s] is empty.  When [s] ends with a field, a call with
    keywords, none of them named [self], returns a new object that
    differs from [s] in the arguments of that field, which are the
    keywords; and the bracket operation with a child that is not empty
    returns a new object that differs from [s] in the nested set of that
    field, which is the child, while an empty child fails the assert.
    The object returned is new in each case and every object there was,
    [self] among them, has the selections it had.  Iteration gives the
    selections in the order of the tuple, and the length is their
    number: after the attribute accesses [names], in that order, the
    selections of [s] are followed by one bare field for each name. *)
Theorem builder_acts_on_last_field (inherited : string -> bool) (st : Store)
    (self : nat) (s : SelectionSet) :
  selections_of st self = Some s ->
  (forall n,
     found_by_lookup inherited n = false ->
     exists made st',
       object_getattr inherited st self n = Some (Made made st')
       /\ new_object st made st' (s ++ [Field n [] []])
       /\ (s = [] -> selections_of st' made = Some [Field n [] []]))
  /\
  (forall rest name kw nested kwargs,
     s = rest ++ [Field name kw nested] ->
     mem "self" (keys kwargs) = false ->
     exists made st',
       object_call st self kwargs = Some (Ok (made, st'))
       /\ new_object st made st' (rest ++ [Field name kwargs nested]))
  /\
  (forall rest name kw nested selection_set child,
     s = rest ++ [Field name kw nested] ->
     selections_of st selection_set = Some child ->
     (child <> [] ->
      exists made st',
        object_getitem st self selection_set = Some (Ok (made, st'))
        /\ new_object st made st' (rest ++ [Field name kw child]))
     /\
     (child = [] ->
      object_getitem st self selection_set = Some (Raise AssertionError)))
  /\
  object_iter st self = Some s
  /\
  object_len st self = Some (length s)
  /\
  (forall names,
     forallb (fun n => negb (found_by_lookup inherited n)) names = true ->
     exists s',
       attribute_chain inherited s names = Some s'
       /\ SelectionSet_iter s' = SelectionSet_iter s ++ map bare_field names
       /\ SelectionSet_len s' = SelectionSet_len s + length names).
Proof.
  intros Hself.
  split; [| split; [| split; [| split; [| split]]]].
  - intros n Hn.
    exists (length st), (st ++ [s ++ [Field n [] []]]).
    split; [| split].
    + unfold object_getattr. now rewrite Hn, Hself.
    + apply (make_new_object (s ++ [Field n [] []]) st).
    + intros ->.
      apply (proj1 (proj2 (make_new_object [Field n [] []] st))).
  - intros rest name kw nested kwargs -> _.
    exists (length st), (st ++ [rest ++ [Field name kwargs nested]]).
    split.
    + unfold object_call. rewrite Hself. unfold SelectionSet_call.
      now rewrite unpack_last_snoc.
    + apply (make_new_object (rest ++ [Field name kwargs nested]) st).
  - intros rest name kw nested selection_set child -> Hchild.
    unfold object_getitem. rewrite Hself, Hchild. unfold SelectionSet_getitem.
    rewrite unpack_last_snoc. split.
    + intros Hne.
      exists (length st), (st ++ [rest ++ [Field name kw child]]).
      split; [| apply (make_new_object (rest ++ [Field name kw child]) st)].
      destruct child; [contradiction | reflexivity].
    + intros ->. reflexivity.
  - unfold object_iter. now rewrite Hself.
  - unfold object_len. now rewrite Hself.
  - intros names Hnames. exists (s ++ map bare_field names).
    split; [now apply attribute_chain_appends |].
    unfold SelectionSet_iter, SelectionSet_len.
    split; [reflexivity |]. now rewrite length_app, length_map.
Qed.

(** [_.foo.bar(bla=4)[_.baz]], built step by step: the objects are
    [selector], [_.foo], [_.foo.bar], [_.foo.bar(bla=4)] and [_.baz]. *)
Lemma builder_acts_on_last_field_witness :
  (exists made st',
     object_getattr object_names [selector] 0 "foo" = Some (Made made st')
     /\ new_object [selector] made st' ([] ++ [Field "foo" [] []])
     /\ (selector = [] -> selections_of st' made = Some [Field "foo" [] []]))
  /\
  (exists made st',
     object_call [selector; [Field "foo" [] []];
                  [Field "foo" [] []; Field "bar" [] []]] 2 [("bla", VInt 4)]
     = Some (Ok (made, st'))
     /\ new_object [selector; [Field "foo" [] []];
                    [Field "foo" [] []; Field "bar" [] []]] made st'
          ([Field "foo" [] []] ++ [Field "bar" [("bla", VInt 4)] []]))
  /\
  (exists made st',
     object_getitem [[Field "foo" [] []; Field "bar" [("bla", VInt 4)] []];
                     [Field "baz" [] []]] 0 1
     = Some (Ok (made, st'))
     /\ new_object [[Field "foo" [] []; Field "bar" [("bla", VInt 4)] []];
                    [Field "baz" [] []]] made st'
          ([Field "foo" [] []]
           ++ [Field "bar" [("bla", VInt 4)] [Field "baz" [] []]])).
Proof.
  split; [| split].
  - apply (proj1 (builder_acts_on_last_field object_names [selector] 0
                    selector eq_refl) "foo").
    reflexivity.
  - apply (proj1 (proj2 (builder_acts_on_last_field object_names
                    [selector; [Field "foo" [] []];
                     [Field "foo" [] []; Field "bar" [] []]] 2
                    [Field "foo" [] []; Field "bar" [] []] eq_refl))
             [Field "foo" [] []] "bar" [] [] [("bla", VInt 4)]);
      reflexivity.
  - apply (proj1 (proj2 (proj2 (builder_acts_on_last_field object_names
                    [[Field "foo" [] []; Field "bar" [("bla", VInt 4)] []];
                     [Field "baz" [] []]] 0
                    [Field "foo" [] []; Field "bar" [("bla", VInt 4)] []]
                    eq_refl)))
             [Field "foo" [] []] "bar" [("bla", VInt 4)] [] 1
             [Field "baz" [] []]);
      [reflexivity | reflexivity | discriminate].
Defined.

(** The claim as it is written, at [_.foo[_]]: the set [_.foo] is not
    empty, and the bracket operation with the empty [selector] as child
    returns no set. *)
Lemma nesting_empty_child_returns_no_set :
  selections_of [[Field "foo" [] []]; selector] 0 = Some [Field "foo" [] []]
  /\ object_getitem [[Field "foo" [] []]; selector] 0 1
     = Some (Raise AssertionError)
  /\ ~ (exists made st',
          object_getitem [[Field "foo" [] []]; selector] 0 1
          = Some (Ok (made, st'))).
Proof.
  split; [reflexivity |]. split; [reflexivity |].
  intros [made [st' H]]. discriminate H.
Qed.

(** Attribute access under a name of the class body gives the attribute
    of the class, here the class method [_make], and makes no set. *)
Example attribute_of_the_class :
  object_getattr object_names [selector] 0 "_make" = Some (OfClass "_make")
  /\ SelectionSet_attribute object_names selector "_make" = None.
Proof. split; reflexivity. Qed.

(** C5, as amended.  A call on the empty set raises [Error], and so does
    the bracket operation on the empty set, whatever the child.  The
    bracket operation on a non-empty set with an empty child fails its
    [assert]: the exception is [AssertionError], not [Error]. *)
Theorem empty_builder_errors :
  (forall kwargs,
     SelectionSet_call [] kwargs
     = Raise (BuilderError "cannot call empty field list"))
  /\
  (forall child,
     SelectionSet_getitem [] child
     = Raise (BuilderError "cannot select fields from empty field list"))
  /\
  (forall s, s <> [] -> SelectionSet_getitem s [] = Raise AssertionError).
Proof.
  split; [| split]; try reflexivity.
  intros s Hs. destruct (unpack_last_some s Hs) as [rest [x ->]].
  unfold SelectionSet_getitem. now rewrite unpack_last_snoc.
Qed.

Lemma empty_builder_errors_witness :
  SelectionSet_getitem [Field "foo" [] []] [] = Raise AssertionError.
Proof.
  apply (proj2 (proj2 empty_builder_errors)). discriminate.
Defined.

(** C5, as stated: [_.foo[_]], an empty child under a non-empty set, does
    not raise [Error]. *)
Lemma empty_child_not_builder_error :
  ~ (forall s, exists msg,
       SelectionSet_getitem s [] = Raise (BuilderError msg)).
Proof.
  intros H. destruct (H [Field "foo" [] []]) as [msg Hmsg].
  discriminate Hmsg.
Qed.

(** ** Membership tests of the wrappers *)

(** C6.  A value is an instance of List[T] exactly when it is a list whose
    elements are each an instance of [T]; of Nullable[T] exactly when it is
    [None] or an instance of [T]; of a Union exactly when it is an
    instance of one of the union's member types. *)
Theorem wrapper_membership (T : pytype) (v : pyval) :
  (isinstance v (TList T) = true <->
   is_list v = true /\
   exists items, v = VList items /\
                 Forall (fun i => isinstance i T = true) items)
  /\
  (isinstance v (TNullable T) = true <->
   v = VNone \/ isinstance v T = true)
  /\
  (forall name members,
     isinstance v (TUnion name members) = true <->
     exists t, In t members /\ isinstance v t = true).
Proof.
  split; [| split].
  - simpl. destruct v; simpl;
      try (split; [discriminate | intros [_ [items [Hv _]]]; discriminate Hv]).
    split.
    + intros H. split; [reflexivity |]. exists items. split; [reflexivity |].
      apply Forall_forall. now apply forallb_forall.
    + intros [_ [items' [Hv Hall]]]. injection Hv as <-.
      apply forallb_forall. now apply Forall_forall.
  - simpl. rewrite orb_true_iff. split.
    + intros [Hnone | Hinst]; [left | now right].
      now destruct v.
    + intros [-> | Hinst]; [now left | now right].
  - intros name members. simpl. rewrite existsb_exists. reflexivity.
Qed.

Lemma wrapper_membership_witness :
  isinstance (VList [VInt 1; VBool true]) (TList TInt) = true
  /\ isinstance VNone (TNullable Command) = true
  /\ isinstance (VStr "abc") (TUnion "IntOrStr" [TInt; TStr]) = true.
Proof.
  split; [| split].
  - apply (proj1 (wrapper_membership TInt (VList [VInt 1; VBool true]))).
    split; [reflexivity |]. exists [VInt 1; VBool true].
    split; [reflexivity |]. repeat constructor.
  - apply (proj1 (proj2 (wrapper_membership Command VNone))). now left.
  - apply (proj2 (proj2 (wrapper_membership TInt (VStr "abc")))).
    exists TStr. split; [simpl; auto | reflexivity].
Defined.

(** ** Identity of the wrapper classes *)

Lemma class_eq_refl (c : ClassObj) : class_eq c c = true.
Proof.
  unfold class_eq. destruct (class_id c); simpl.
  - apply String.eqb_refl.
  - apply Nat.eqb_refl.
Qed.




(** ** Argument literals *)

Lemma str_of_int_parses (z : Z) :
  option_map Z.of_int (NilZero.int_of_string (str_of_int z)) = Some z.
Proof.
  unfold str_of_int. rewrite NilZero.isi.
  - simpl. now rewrite DecimalZ.of_to.
  - destruct z; simpl; try discriminate.
    intros [= H]. now apply (DecimalPos.Unsigned.to_uint_nonnil p).
  - destruct z; simpl; try discriminate.
    intros [= H]. now apply (DecimalPos.Unsigned.to_uint_nonnil p).
Qed.

(** C8, as amended.  A string is rendered between double quotes, an
    integer as its decimal text, a boolean as [true] or [false], [None] as
    [null], and an enum member as its value, without quotes, which is its
    bare name when the member's value is its name. *)
Theorem argument_literals :
  (forall s, argument_as_gql (VStr s) = Ok (dquote ++ s ++ dquote)%string)
  /\ (forall z,
        argument_as_gql (VInt z) = Ok (str_of_int z) /\
        option_map Z.of_int (NilZero.int_of_string (str_of_int z)) = Some z)
  /\ argument_as_gql (VBool true) = Ok "true"
  /\ argument_as_gql (VBool false) = Ok "false"
  /\ argument_as_gql VNone = Ok "null"
  /\ (forall cls m, argument_as_gql (VEnum cls m) = Ok (member_value m))
  /\ (forall cls m,
        member_value m = member_name m ->
        argument_as_gql (VEnum cls m) = Ok (member_name m)).
Proof.
  repeat split.
  - apply str_of_int_parses.
  - intros cls m <-. reflexivity.
Qed.

Lemma argument_literals_witness :
  argument_as_gql (VEnum "Command" SIT) = Ok "SIT".
Proof.
  apply (proj2 (proj2 (proj2 (proj2 (proj2 (proj2 argument_literals)))))
           "Command" SIT).
  reflexivity.
Defined.

(** C8, as stated: a member named [SIT] with value [sit] is rendered as
    [sit]. *)
Lemma enum_member_not_rendered_by_name :
  ~ (forall cls m, argument_as_gql (VEnum cls m) = Ok (member_name m)).
Proof.
  intros H. specialize (H "Command" SIT_lower). discriminate H.
Qed.

Example argument_literal_examples :
  argument_as_gql (VInt (-42)) = Ok "-42"
  /\ argument_as_gql (VInt 0) = Ok "0"
  /\ argument_as_gql (VID "abc") = Ok (dquote ++ "abc" ++ dquote)%string
  /\ argument_as_gql (VFloat 0)
     = Raise (TypeError "cannot serialize to GraphQL: <class 'float'>").
Proof. repeat split. Qed.

(** ** Serialization *)

Lemma append_nil_r (s : string) : (s ++ EmptyString)%string = s.
Proof. induction s; simpl; congruence. Qed.

Lemma append_assoc (a b c : string) : ((a ++ b) ++ c = a ++ b ++ c)%string.
Proof. induction a; simpl; congruence. Qed.

Lemma one_line_app (a b : string) :
  one_line (a ++ b) = one_line a && one_line b.
Proof.
  induction a as [| c a IH]; simpl; [reflexivity |].
  rewrite IH. apply andb_assoc.
Qed.

Lemma has_text_app (a b : string) :
  has_text (a ++ b) = has_text a || has_text b.
Proof.
  induction a as [| c a IH]; simpl; [reflexivity |].
  rewrite IH. apply orb_assoc.
Qed.

Lemma join_cons (sep x : string) (xs : list string) :
  xs <> [] -> join sep (x :: xs) = (x ++ sep ++ join sep xs)%string.
Proof. destruct xs; [contradiction | reflexivity]. Qed.

Lemma join_app (sep : string) (a b : list string) :
  a <> [] -> b <> [] ->
  join sep (a ++ b) = (join sep a ++ sep ++ join sep b)%string.
Proof.
  intros Ha Hb. induction a as [| x a IH]; [contradiction |].
  destruct a as [| y a].
  - simpl app. now rewrite join_cons.
  - change ((x :: y :: a) ++ b) with (x :: ((y :: a) ++ b)).
    rewrite join_cons by discriminate.
    rewrite IH by discriminate.
    rewrite (join_cons sep x (y :: a)) by discriminate.
    now rewrite !append_assoc.
Qed.

Lemma one_line_join (sep : string) (parts : list string) :
  one_line sep = true ->
  Forall (fun p => one_line p = true) parts ->
  one_line (join sep parts) = true.
Proof.
  intros Hsep Hall. induction Hall as [| p parts Hp Hall IH]; [reflexivity |].
  destruct parts as [| q parts]; [exact Hp |].
  rewrite join_cons by discriminate.
  now rewrite !one_line_app, Hp, Hsep, IH.
Qed.

(** *** Lines and indentation *)

Lemma splitlines_from_line (cur l rest : string) :
  one_line l = true ->
  splitlines_from cur (l ++ rest) = splitlines_from (cur ++ l) rest.
Proof.
  revert cur. induction l as [| c l IH]; intros cur Hl; simpl.
  - now rewrite append_nil_r.
  - simpl in Hl. apply andb_true_iff in Hl. destruct Hl as [Hc Hl].
    apply negb_true_iff in Hc.
    assert (Hcr : Ascii.eqb c (ascii_of_nat 13) = false).
    { destruct (Ascii.eqb_spec c (ascii_of_nat 13)) as [-> |]; [| reflexivity].
      discriminate Hc. }
    rewrite Hcr, Hc, IH by assumption.
    now rewrite append_assoc.
Qed.

Lemma splitlines_from_newline (cur rest : string) :
  splitlines_from cur (newline ++ rest)
  = (cur ++ newline)%string :: splitlines_from EmptyString rest.
Proof. reflexivity. Qed.

Lemma concat_empty_cons (x : string) (xs : list string) :
  String.concat EmptyString (x :: xs)
  = (x ++ String.concat EmptyString xs)%string.
Proof. destruct xs; simpl; [now rewrite append_nil_r | reflexivity]. Qed.

(** [textwrap.indent] puts the prefix in front of every line of a text
    whose lines are not blank. *)
Lemma indent_lines (prefix : string) (lines : list string) :
  lines <> [] ->
  Forall text_line lines ->
  indent (join newline lines) prefix
  = join newline (map (append prefix) lines).
Proof.
  intros Hne Hall. induction Hall as [| l lines [Hone Htext] Hall IH];
    [contradiction |].
  destruct lines as [| l2 lines].
  - simpl. unfold indent, splitlines_keepends.
    rewrite <- (append_nil_r l) at 1.
    rewrite splitlines_from_line by assumption.
    destruct l as [| c l]; [discriminate Htext |].
    cbn [splitlines_from append map String.concat].
    rewrite Htext. reflexivity.
  - rewrite (join_cons newline l (l2 :: lines)) by discriminate.
    cbn [map].
    rewrite (join_cons newline (prefix ++ l)%string) by discriminate.
    specialize (IH ltac:(discriminate)).
    unfold indent, splitlines_keepends in *.
    rewrite splitlines_from_line by assumption.
    rewrite splitlines_from_newline. cbn [map].
    rewrite concat_empty_cons, IH.
    change (EmptyString ++ l)%string with l.
    rewrite has_text_app, Htext. cbn [orb map].
    now rewrite !append_assoc.
Qed.

(** *** Literals and argument lists *)

Lemma one_line_string_of_uint (d : Decimal.uint) :
  one_line (NilEmpty.string_of_uint d) = true.
Proof. induction d; simpl; auto. Qed.

Lemma one_line_str_of_int (z : Z) : one_line (str_of_int z) = true.
Proof.
  unfold str_of_int, NilZero.string_of_int, NilZero.string_of_uint.
  destruct (Z.to_int z) as [d | d]; destruct d; simpl;
    auto using one_line_string_of_uint.
Qed.

Lemma dispatch_user_classes (mro : list string) (rest : list pyclass) :
  dispatch (map CUser mro ++ rest) = dispatch rest.
Proof. induction mro as [| c mro IH]; simpl; [reflexivity | exact IH]. Qed.

Lemma literal_ok_text (v : pyval) :
  literal_ok v = true ->
  argument_as_gql v = Ok (literal_text v) /\ one_line (literal_text v) = true.
Proof.
  destruct v as [| [|] | z | bits | s | s | cls m | items | text mro
                 | text mro s]; simpl;
    intros H; try discriminate H; split; try reflexivity;
    try (now rewrite !one_line_app, H); try assumption.
  - apply one_line_str_of_int.
  - unfold argument_as_gql. cbn [type_mro].
    now rewrite dispatch_user_classes.
Qed.

Lemma map_result_all_ok {A B} (f : A -> result B) (g : A -> B) (l : list A) :
  Forall (fun x => f x = Ok (g x)) l ->
  map_result f l = Ok (map g l).
Proof.
  intros H. induction H as [| x l Hx _ IH]; simpl; [reflexivity |].
  now rewrite Hx, IH.
Qed.

Lemma arguments_gql_tidy (kwargs : FrozenDict pyval) :
  forallb kwarg_ok kwargs = true ->
  arguments_gql kwargs = Ok (argument_list kwargs)
  /\ one_line (argument_list kwargs) = true.
Proof.
  intros Hok.
  assert (Hall : Forall (fun kv => format_kwarg kv = Ok (kwarg_text kv)
                                   /\ one_line (kwarg_text kv) = true) kwargs).
  { apply Forall_forall. intros kv Hkv.
    pose proof (proj1 (forallb_forall _ _) Hok kv Hkv) as H.
    unfold kwarg_ok in H. apply andb_true_iff in H. destruct H as [Hk Hv].
    destruct (literal_ok_text _ Hv) as [Hgql Hone].
    unfold format_kwarg, kwarg_text. rewrite Hgql. cbn [bind].
    split; [reflexivity |]. rewrite !one_line_app, Hk, Hone. reflexivity. }
  destruct kwargs as [| kv kwargs]; [split; reflexivity |].
  unfold arguments_gql, argument_list.
  rewrite (map_result_all_ok format_kwarg kwarg_text).
  - simpl bind. split; [reflexivity |].
    rewrite !one_line_app. simpl one_line at 1.
    rewrite one_line_join; [reflexivity | reflexivity |].
    apply Forall_map. eapply Forall_impl; [| exact Hall]. now intros a [_ H].
  - eapply Forall_impl; [| exact Hall]. now intros a [H _].
Qed.

(** *** The layout of selections *)

(** Induction on a selection, with the property for every nested
    selection at hand. *)
Lemma Selection_nested_ind (P : Selection -> Prop) :
  (forall name kwargs selection_set,
     Forall P selection_set -> P (Field name kwargs selection_set)) ->
  (forall on selection_set,
     Forall P selection_set -> P (InlineFragment on selection_set)) ->
  forall s, P s.
Proof.
  intros HField HFragment. fix IH 1.
  intros [name kwargs selection_set | on selection_set].
  - apply HField. induction selection_set as [| c cs IHcs];
      constructor; [apply IH | exact IHcs].
  - apply HFragment. induction selection_set as [| c cs IHcs];
      constructor; [apply IH | exact IHcs].
Qed.

Lemma layout_nonempty (depth : nat) (s : Selection) : layout depth s <> [].
Proof. destruct s as [n k [| c cs] | on [| c cs]]; discriminate. Qed.

Lemma flat_map_layout_nonempty (depth : nat) (c : Selection) cs :
  flat_map (layout depth) (c :: cs) <> [].
Proof.
  simpl. pose proof (layout_nonempty depth c).
  destruct (layout depth c); [contradiction | discriminate].
Qed.

Lemma layout_deeper_children (cs : list Selection) (depth : nat) :
  Forall (fun s => forall d,
            map (append INDENT) (layout d s) = layout (S d) s) cs ->
  map (append INDENT) (flat_map (layout depth) cs)
  = flat_map (layout (S depth)) cs.
Proof.
  intros H. induction H as [| c cs Hc _ IH]; [reflexivity |].
  cbn [flat_map]. now rewrite map_app, Hc, IH.
Qed.

(** One level deeper is two more spaces in front of every line. *)
Lemma layout_deeper (s : Selection) :
  forall depth, map (append INDENT) (layout depth s) = layout (S depth) s.
Proof.
  induction s as [name kwargs ss IH | on ss IH] using Selection_nested_ind;
    intros depth.
  - destruct ss as [| c cs]; [reflexivity |].
    cbn [layout]. cbn [map]. rewrite map_app. cbn [map].
    now rewrite layout_deeper_children.
  - destruct ss as [| c cs]; [reflexivity |].
    cbn [layout]. cbn [map]. rewrite map_app. cbn [map].
    now rewrite layout_deeper_children.
Qed.

Lemma spaces_text_line (depth : nat) (s : string) :
  text_line s -> text_line (spaces depth ++ s).
Proof.
  intros [Hone Htext]. induction depth as [| d [IH1 IH2]]; [now split |].
  split.
  - cbn [spaces]. rewrite append_assoc, one_line_app. now rewrite IH1.
  - cbn [spaces]. rewrite append_assoc, has_text_app. rewrite IH2.
    apply orb_true_r.
Qed.

Lemma tidy_field_inv name kwargs ss :
  tidy (Field name kwargs ss) = true ->
  one_line name = true /\ has_text name = true /\
  forallb kwarg_ok kwargs = true /\ forallb tidy ss = true.
Proof.
  cbn [tidy]. rewrite !andb_true_iff. intuition.
Qed.

Lemma layout_text_lines (s : Selection) :
  forall depth, tidy s = true -> Forall text_line (layout depth s).
Proof.
  induction s as [name kwargs ss IH | on ss IH] using Selection_nested_ind;
    intros depth Htidy.
  - apply tidy_field_inv in Htidy.
    destruct Htidy as [Hone [Htext [Hkw Hss]]].
    destruct (arguments_gql_tidy kwargs Hkw) as [_ Hargs].
    assert (Hchildren : Forall text_line (flat_map (layout (S depth)) ss)).
    { rewrite flat_map_concat_map. apply Forall_concat, Forall_map.
      rewrite Forall_forall in *. intros c Hc. apply IH; [assumption |].
      now apply (proj1 (forallb_forall _ _) Hss). }
    destruct ss as [| c cs]; cbn [layout].
    + constructor; [| constructor]. apply spaces_text_line. split.
      * now rewrite one_line_app, Hone, Hargs.
      * now rewrite has_text_app, Htext.
    + constructor.
      * apply spaces_text_line. split.
        -- now rewrite !one_line_app, Hone, Hargs.
        -- now rewrite has_text_app, Htext.
      * apply Forall_app. split; [assumption |].
        constructor; [| constructor]. apply spaces_text_line. now split.
  - cbn [tidy] in Htidy. apply andb_true_iff in Htidy.
    destruct Htidy as [Hone Hss].
    assert (Hchildren : Forall text_line (flat_map (layout (S depth)) ss)).
    { rewrite flat_map_concat_map. apply Forall_concat, Forall_map.
      rewrite Forall_forall in *. intros c Hc. apply IH; [assumption |].
      now apply (proj1 (forallb_forall _ _) Hss). }
    destruct ss as [| c cs]; cbn [layout].
    + constructor; [| constructor]. apply spaces_text_line. split.
      * now rewrite !one_line_app, Hone.
      * reflexivity.
    + constructor.
      * apply spaces_text_line. split.
        -- now rewrite !one_line_app, Hone.
        -- reflexivity.
      * apply Forall_app. split; [assumption |].
        constructor; [| constructor]. apply spaces_text_line. now split.
Qed.

Lemma join_flat_map (sep : string) {A} (L : A -> list string) (cs : list A) :
  (forall c, L c <> []) ->
  join sep (map (fun c => join sep (L c)) cs) = join sep (flat_map L cs).
Proof.
  intros HL. induction cs as [| c cs IH]; [reflexivity |].
  destruct cs as [| c2 cs].
  - cbn [map flat_map]. now rewrite app_nil_r.
  - cbn [map] in *. rewrite join_cons by discriminate. rewrite IH.
    change (flat_map L (c :: c2 :: cs)) with (L c ++ flat_map L (c2 :: cs)).
    rewrite join_app; [reflexivity | apply HL |].
    cbn [flat_map]. pose proof (HL c2). destruct (L c2); [contradiction | discriminate].
Qed.

Lemma gql_field_eq name kwargs selection_set :
  gql (Field name kwargs selection_set)
  = (arguments <- arguments_gql kwargs ;;
     selection_set_text <-
       match selection_set with
       | [] => Ok EmptyString
       | _ =>
           block <- SelectionSet_gql_with gql selection_set ;;
           Ok (" " ++ block)%string
       end ;;
     Ok (name ++ arguments ++ selection_set_text)%string).
Proof. reflexivity. Qed.

Lemma gql_fragment_eq on selection_set :
  gql (InlineFragment on selection_set)
  = (block <- SelectionSet_gql_with gql selection_set ;;
     Ok ("... on " ++ type_name on ++ " " ++ block)%string).
Proof. reflexivity. Qed.

Lemma gql_block (c : Selection) (cs : list Selection) :
  Forall (fun s => tidy s = true -> gql s = Ok (join newline (layout 0 s)))
         (c :: cs) ->
  forallb tidy (c :: cs) = true ->
  SelectionSet_gql_with gql (c :: cs)
  = Ok ("{" ++ newline ++ join newline (flat_map (layout 1) (c :: cs))
            ++ newline ++ "}")%string.
Proof.
  intros IH Htidy. unfold SelectionSet_gql_with.
  rewrite (map_result_all_ok _ (fun s => join newline (layout 1 s))).
  - cbn [bind]. now rewrite (join_flat_map newline (layout 1)) by apply layout_nonempty.
  - rewrite Forall_forall in *. intros s Hs.
    pose proof (proj1 (forallb_forall _ _) Htidy s Hs) as Hts.
    rewrite (IH s Hs Hts). cbn [bind].
    rewrite indent_lines.
    + now rewrite layout_deeper.
    + apply layout_nonempty.
    + now apply layout_text_lines.
Qed.

(** The serializer refines the layout: a tidy selection is serialized as
    the lines of its layout at level 0, joined by newlines. *)
Lemma gql_layout (s : Selection) :
  tidy s = true -> gql s = Ok (join newline (layout 0 s)).
Proof.
  induction s as [name kwargs ss IH | on ss IH] using Selection_nested_ind;
    intros Htidy.
  - pose proof Htidy as Hinv. apply tidy_field_inv in Hinv.
    destruct Hinv as [_ [_ [Hkw Hss]]].
    destruct (arguments_gql_tidy kwargs Hkw) as [Hargs _].
    rewrite gql_field_eq, Hargs. cbn [bind].
    destruct ss as [| c cs].
    + cbn [bind layout spaces join String.concat append].
      now rewrite append_nil_r.
    + rewrite gql_block by assumption. cbn [bind layout spaces].
      rewrite join_cons by (destruct (flat_map (layout 1) (c :: cs)); discriminate).
      rewrite join_app; [| apply flat_map_layout_nonempty | discriminate].
      cbn [append]. rewrite !append_assoc. reflexivity.
  - cbn [tidy] in Htidy. apply andb_true_iff in Htidy.
    destruct Htidy as [_ Hss].
    rewrite gql_fragment_eq.
    destruct ss as [| c cs]; [reflexivity |].
    rewrite gql_block by assumption. cbn [bind layout spaces].
    rewrite join_cons by (destruct (flat_map (layout 1) (c :: cs)); discriminate).
    rewrite join_app; [| apply flat_map_layout_nonempty | discriminate].
    cbn [append]. rewrite !append_assoc. reflexivity.
Qed.

Lemma map_result_then {A B C} (f : A -> result B) (g : B -> C) (l : list A) :
  map_result (fun x => y <- f x ;; Ok (g y)) l
  = (ys <- map_result f l ;; Ok (map g ys)).
Proof.
  induction l as [| x l IH]; [reflexivity |].
  cbn [map_result]. rewrite IH.
  destruct (f x) as [y | e]; [| reflexivity]. cbn [bind].
  now destruct (map_result f l).
Qed.

Lemma map_result_paired {A B C} (f : A -> result B) (g : A * B -> C)
    (l : list A) :
  map_result (fun x => y <- f x ;; Ok (g (x, y))) l
  = (ys <- map_result f l ;; Ok (map g (combine l ys))).
Proof.
  induction l as [| x l IH]; [reflexivity |].
  cbn [map_result]. rewrite IH.
  destruct (f x) as [y | e]; [| reflexivity]. cbn [bind].
  now destruct (map_result f l).
Qed.

(** C9.  A field with no arguments and no sub-selection is serialized as
    its name.  A field with a sub-selection is serialized as its name,
    then its arguments if it has any, as a parenthesized, comma-separated
    list of [name: literal], then a space and a block in braces; the body
    of the block is the serialized children, one after the other on lines
    of their own, each indented by two spaces.  When names and literals
    are single lines, the text is line for line the layout in which every
    nesting level adds two spaces. *)
Theorem field_serialization :
  (forall name, gql (Field name [] []) = Ok name)
  /\
  (forall name kwargs c cs arguments texts,
     arguments_gql kwargs = Ok arguments ->
     map_result gql (c :: cs) = Ok texts ->
     gql (Field name kwargs (c :: cs))
     = Ok (name ++ arguments ++ " {" ++ newline
           ++ join newline (map (fun text => indent text INDENT) texts)
           ++ newline ++ "}")%string)
  /\
  arguments_gql [] = Ok EmptyString
  /\
  (forall kv kwargs literals,
     map_result (fun a => argument_as_gql (snd a)) (kv :: kwargs)
     = Ok literals ->
     arguments_gql (kv :: kwargs)
     = Ok ("(" ++ join ", "
                    (map (fun p => (fst (fst p) ++ ": " ++ snd p)%string)
                         (combine (kv :: kwargs) literals))
               ++ ")")%string)
  /\
  (forall s,
     tidy s = true ->
     gql s = Ok (join newline (layout 0 s))
     /\ forall depth,
          layout (S depth) s = map (append INDENT) (layout depth s)).
Proof.
  split; [| split; [| split; [| split]]].
  - intros name. rewrite gql_field_eq. cbn [arguments_gql bind].
    now rewrite append_nil_r.
  - intros name kwargs c cs arguments texts Hargs Htexts.
    rewrite gql_field_eq, Hargs. cbn [bind].
    unfold SelectionSet_gql_with.
    rewrite (map_result_then gql (fun text => indent text INDENT)), Htexts.
    reflexivity.
  - reflexivity.
  - intros kv kwargs literals Hlits. unfold arguments_gql, format_kwarg.
    rewrite (map_result_paired (fun a => argument_as_gql (snd a))
               (fun p => (fst (fst p) ++ ": " ++ snd p)%string)).
    now rewrite Hlits.
  - intros s Htidy. split; [now apply gql_layout |].
    intros depth. symmetry. apply layout_deeper.
Qed.

Lemma field_serialization_witness :
  gql test_nested_field
  = Ok (join newline
          ["bla(q: 9) {";
           "  blabla";
           ("  foobar(qux: " ++ dquote ++ "another string" ++ dquote ++ ")")%string;
           "  other {";
           "    baz";
           "  }";
           "}"]).
Proof.
  apply (proj1 (proj2 (proj2 (proj2 (proj2 field_serialization)))
                 test_nested_field eq_refl)).
Defined.

(** * Further properties *)

(** ** Validation of selection sets *)

Lemma for_each_app {A} (f : A -> result unit) (a b : list A) :
  for_each f (a ++ b) = (for_each f a ;;; for_each f b).
Proof.
  induction a as [| x a IH]; simpl; [reflexivity |].
  destruct (f x) as [[] | e]; simpl; [exact IH | reflexivity].
Qed.

Section SelectionSetValidation.

Variable set_pop : SetPop.
Variable classes : ClassTable.

Lemma getitem_eq T S :
  ObjectMeta_getitem set_pop classes T S
  = (for_each (_check_field set_pop classes T) S ;;;
     Ok (InlineFragment T S)).
Proof. reflexivity. Qed.

Lemma getitem_ok_iff T S :
  ObjectMeta_getitem set_pop classes T S = Ok (InlineFragment T S)
  <-> for_each (_check_field set_pop classes T) S = Ok tt.
Proof.
  rewrite getitem_eq.
  destruct (for_each (_check_field set_pop classes T) S) as [[] | e]; simpl;
    split; congruence.
Qed.

Lemma getitem_raise_iff T S e :
  ObjectMeta_getitem set_pop classes T S = Raise e
  <-> for_each (_check_field set_pop classes T) S = Raise e.
Proof.
  rewrite getitem_eq.
  destruct (for_each (_check_field set_pop classes T) S) as [[] | e']; simpl;
    split; congruence.
Qed.

End SelectionSetValidation.

(** X1.  Validation goes through a selection set from left to right: the
    concatenation of two selection sets is valid for [T] exactly when both
    are; the error of the first set is the error of the concatenation;
    and when the first set is valid, the error of the second set is. *)
Theorem validation_of_concatenation (sp : SetPop) (classes : ClassTable)
    (T : pytype) (S1 S2 : SelectionSet) :
  (ObjectMeta_getitem sp classes T (S1 ++ S2)
   = Ok (InlineFragment T (S1 ++ S2))
   <-> ObjectMeta_getitem sp classes T S1 = Ok (InlineFragment T S1)
       /\ ObjectMeta_getitem sp classes T S2 = Ok (InlineFragment T S2))
  /\
  (forall e, ObjectMeta_getitem sp classes T S1 = Raise e ->
             ObjectMeta_getitem sp classes T (S1 ++ S2) = Raise e)
  /\
  (forall e, ObjectMeta_getitem sp classes T S1 = Ok (InlineFragment T S1) ->
             ObjectMeta_getitem sp classes T S2 = Raise e ->
             ObjectMeta_getitem sp classes T (S1 ++ S2) = Raise e).
Proof.
  split; [| split].
  - rewrite !getitem_ok_iff, for_each_app.
    destruct (for_each (_check_field sp classes T) S1) as [[] | e]; simpl.
    + tauto.
    + split; [discriminate | intros [H _]; discriminate H].
  - intros e. rewrite !getitem_raise_iff, for_each_app. now intros ->.
  - intros e. rewrite getitem_ok_iff, !getitem_raise_iff, for_each_app.
    now intros -> ->.
Qed.

Lemma validation_of_concatenation_witness :
  ObjectMeta_getitem pop_first test_classes Dog
    ([Field "name" [] []] ++ [Field "foo" [] []; Field "bar" [] []])
  = Raise (NoSuchField Dog "foo").
Proof.
  apply (proj2 (proj2 (validation_of_concatenation pop_first test_classes Dog
           [Field "name" [] []] [Field "foo" [] []; Field "bar" [] []])));
    reflexivity.
Defined.

(** X2.  A selection set that validates holds no inline fragment at any
    depth: [_check_field] asserts that each selection it visits is a
    [Field]. *)
Lemma check_field_fragment_free (sp : SetPop) (classes : ClassTable)
    (f : Selection) :
  forall parent,
    _check_field sp classes parent f = Ok tt -> fragment_free f = true.
Proof.
  induction f as [name kwargs ss IH | on ss IH] using Selection_nested_ind;
    intros parent H.
  - rewrite check_field_eq in H.
    destruct (class_getattr classes parent name) as [[schema |] |];
      [| discriminate | discriminate].
    destruct (_check_args sp parent schema kwargs) as [[] | e];
      [| discriminate].
    simpl in H. cbn [fragment_free]. apply forallb_forall. intros c Hc.
    rewrite Forall_forall in IH.
    apply (IH c Hc (_unwrap_list_or_nullable (fs_type schema))).
    now apply (proj1 (for_each_all_ok _ _) H).
  - discriminate H.
Qed.

Theorem validated_selections_have_no_fragment (sp : SetPop)
    (classes : ClassTable) (T : pytype) (S : SelectionSet) (r : Selection) :
  ObjectMeta_getitem sp classes T S = Ok r ->
  forallb fragment_free S = true.
Proof.
  intros H. rewrite getitem_eq in H.
  destruct (for_each (_check_field sp classes T) S) as [[] | e] eqn:Hall;
    [| discriminate].
  apply forallb_forall. intros c Hc.
  apply (check_field_fragment_free sp classes c T).
  now apply (proj1 (for_each_all_ok _ _) Hall).
Qed.

Lemma validated_selections_have_no_fragment_witness :
  forallb fragment_free test_valid_selection = true.
Proof.
  apply (validated_selections_have_no_fragment pop_first test_classes Dog
           test_valid_selection (InlineFragment Dog test_valid_selection)).
  reflexivity.
Defined.

(** ** The choice made by [set.pop] *)

Lemma same_verdict_refl {A} (a : result A) : same_verdict a a.
Proof. destruct a as [x | []]; simpl; auto. Qed.

Lemma same_verdict_bind {A B} (a b : result A) (k1 k2 : A -> result B) :
  same_verdict a b ->
  (forall x, same_verdict (k1 x) (k2 x)) ->
  same_verdict (bind a k1) (bind b k2).
Proof.
  intros Hab Hk. destruct a as [x | e1], b as [y | e2]; simpl in *;
    try contradiction.
  - subst y. apply Hk.
  - exact Hab.
Qed.

Lemma check_args_same_verdict (sp1 sp2 : SetPop) cls field kwargs :
  same_verdict (_check_args sp1 cls field kwargs)
               (_check_args sp2 cls field kwargs).
Proof.
  unfold _check_args.
  destruct (set_difference (keys kwargs) (keys (fs_args field))).
  - apply same_verdict_refl.
  - simpl. auto.
Qed.

Lemma for_each_same_verdict {A} (f g : A -> result unit) (l : list A) :
  Forall (fun x => same_verdict (f x) (g x)) l ->
  same_verdict (for_each f l) (for_each g l).
Proof.
  intros H. induction H as [| x l Hx _ IH]; simpl; [reflexivity |].
  apply same_verdict_bind; [exact Hx | intros _; exact IH].
Qed.

Lemma check_field_same_verdict (sp1 sp2 : SetPop) (classes : ClassTable)
    (f : Selection) :
  forall parent,
    same_verdict (_check_field sp1 classes parent f)
                 (_check_field sp2 classes parent f).
Proof.
  induction f as [name kwargs ss IH | on ss IH] using Selection_nested_ind;
    intros parent.
  - rewrite !check_field_eq.
    destruct (class_getattr classes parent name) as [[schema |] |];
      [| apply same_verdict_refl | apply same_verdict_refl].
    apply same_verdict_bind; [apply check_args_same_verdict |].
    intros _. apply for_each_same_verdict.
    eapply Forall_impl; [| exact IH]. intros c Hc. apply Hc.
  - apply same_verdict_refl.
Qed.

(** X3.  Whatever element [set.pop] returns, validation gives the same
    verdict: the same result when it succeeds and the same error when it
    fails, except for the undeclared name a [NoSuchArgument] carries. *)
Theorem validation_verdict_independent_of_pop (sp1 sp2 : SetPop)
    (classes : ClassTable) (T : pytype) (S : SelectionSet) :
  same_verdict (ObjectMeta_getitem sp1 classes T S)
               (ObjectMeta_getitem sp2 classes T S)
  /\ same_verdict (query sp1 classes S T) (query sp2 classes S T).
Proof.
  assert (H : same_verdict (for_each (_check_field sp1 classes T) S)
                           (for_each (_check_field sp2 classes T) S)).
  { apply for_each_same_verdict. apply Forall_forall. intros c _.
    apply check_field_same_verdict. }
  split.
  - unfold ObjectMeta_getitem. apply same_verdict_bind; [exact H |].
    intros _. reflexivity.
  - unfold query. apply same_verdict_bind; [exact H |].
    intros _. reflexivity.
Qed.

(** ** Fields selected without arguments *)

(** X4.  A field selected with no arguments and no sub-selection is
    valid for [T] exactly when [T] declares it and every argument it
    declares is Nullable-wrapped. *)
Theorem bare_field_valid_iff (sp : SetPop) (classes : ClassTable)
    (T : pytype) (name : string) :
  _check_field sp classes T (Field name [] []) = Ok tt
  <-> exists schema,
        class_getattr classes T name = Some (AField schema) /\
        forall p, In p (values (fs_args schema)) ->
                  issubclass_Nullable (iv_type p) = true.
Proof.
  rewrite check_field_eq.
  destruct (class_getattr classes T name) as [[schema |] |].
  - rewrite (check_args_known sp T schema []) by (intros n []).
    cbn [for_each].
    assert (Hiff : for_each (check_param T schema []) (values (fs_args schema))
                   = Ok tt
                   <-> forall p, In p (values (fs_args schema)) ->
                                 issubclass_Nullable (iv_type p) = true).
    { rewrite for_each_all_ok. split; intros H p Hp; specialize (H p Hp).
      - unfold check_param in H. simpl in H.
        destruct (issubclass_Nullable (iv_type p)); [reflexivity | discriminate].
      - unfold check_param. simpl. now rewrite H. }
    destruct (for_each (check_param T schema []) (values (fs_args schema)))
      as [[] | e]; simpl.
    + split; [| reflexivity]. intros _. exists schema. split; [reflexivity |].
      now apply Hiff.
    + split; [discriminate |]. intros [schema' [[= <-] Hall]].
      now apply Hiff.
  - split; [discriminate | intros [schema [H _]]; discriminate H].
  - split; [discriminate | intros [schema [H _]]; discriminate H].
Qed.

Lemma bare_field_valid_iff_witness :
  _check_field pop_first test_classes Dog (Field "is_housetrained" [] [])
  = Ok tt.
Proof.
  apply (proj2 (bare_field_valid_iff pop_first test_classes Dog
                  "is_housetrained")).
  exists Dog_is_housetrained. split; [reflexivity |].
  intros p [<- | []]. reflexivity.
Defined.

(** ** Scalars that are subclasses *)

(** X5.  For a field with one declared argument, supplied alone,
    validation succeeds when the value is an instance of the declared type
    and raises [InvalidArgumentType] otherwise.  An [ID] is a [str] and a
    [bool] is an [int], not the other way round: an argument declared ID
    rejects a plain string, one declared String accepts an ID, and one
    declared Int accepts a boolean. *)
Theorem subclass_scalars_in_arguments (sp : SetPop) (cls : pytype)
    (field : FieldSchema) (name desc : string) (type : pytype) (v : pyval) :
  fs_args field = [(name, mkInputValue name desc type)] ->
  (_check_args sp cls field [(name, v)]
   = if isinstance v type then Ok tt
     else Raise (InvalidArgumentType cls field name v))
  /\ (forall s, isinstance (VID s) TStr = true
                /\ isinstance (VID s) TID = true
                /\ isinstance (VStr s) TID = false)
  /\ (forall b z, isinstance (VBool b) TInt = true
                  /\ isinstance (VInt z) TBool = false).
Proof.
  intros Hargs. split; [| split; [intros s | intros b z]; repeat split].
  unfold _check_args. rewrite Hargs. simpl.
  rewrite String.eqb_refl. simpl. unfold check_param. simpl.
  rewrite String.eqb_refl. now destruct (isinstance v type).
Qed.

Lemma subclass_scalars_in_arguments_witness :
  _check_args pop_first Dog
    (mkfield "by_id" Dog [("id", mkInputValue "id" EmptyString TID)])
    [("id", VStr "abc")]
  = Raise (InvalidArgumentType Dog
             (mkfield "by_id" Dog [("id", mkInputValue "id" EmptyString TID)])
             "id" (VStr "abc")).
Proof.
  apply (proj1 (subclass_scalars_in_arguments pop_first Dog
           (mkfield "by_id" Dog [("id", mkInputValue "id" EmptyString TID)])
           "id" EmptyString TID (VStr "abc") eq_refl)).
Defined.

(** ** Composition of the builder operations *)

Lemma snoc_cases {A} (l : list A) :
  l = [] \/ exists rest x, l = rest ++ [x].
Proof.
  destruct l as [| a l]; [now left | right].
  apply unpack_last_some. discriminate.
Qed.

(** X6.  Only the last call and the last bracket operation count: a
    second call replaces the arguments given by the first, and a second
    bracket operation replaces the sub-selection given by the first, when
    that one was not empty.  The errors are the same as well. *)
Theorem repeated_builder_operation_overwrites (s : SelectionSet) :
  (forall kw1 kw2,
     (s' <- SelectionSet_call s kw1 ;; SelectionSet_call s' kw2)
     = SelectionSet_call s kw2)
  /\
  (forall child1 child2,
     child1 <> [] ->
     (s' <- SelectionSet_getitem s child1 ;; SelectionSet_getitem s' child2)
     = SelectionSet_getitem s child2).
Proof.
  destruct (snoc_cases s) as [-> | [rest [x ->]]].
  - split; reflexivity.
  - split.
    + intros kw1 kw2. unfold SelectionSet_call. rewrite unpack_last_snoc.
      destruct x as [name kw nested | on nested]; simpl; [| reflexivity].
      now rewrite unpack_last_snoc.
    + intros child1 child2 Hne. unfold SelectionSet_getitem.
      rewrite unpack_last_snoc.
      destruct child1 as [| c cs]; [contradiction |]. simpl.
      rewrite unpack_last_snoc.
      now destruct x.
Qed.

Lemma repeated_builder_operation_overwrites_witness :
  (s' <- SelectionSet_getitem [Field "foo" [] []] [Field "a" [] []] ;;
   SelectionSet_getitem s' [Field "b" [] []])
  = Ok [Field "foo" [] [Field "b" [] []]].
Proof.
  rewrite (proj2 (repeated_builder_operation_overwrites [Field "foo" [] []])
             [Field "a" [] []] [Field "b" [] []]).
  - reflexivity.
  - discriminate.
Defined.

(** X7.  On a set that ends with a field, giving the arguments and
    giving the sub-selection commute: the result, or the error, is the
    same in either order. *)
Theorem call_and_nesting_commute (rest : SelectionSet) (name : string)
    (kw0 : FrozenDict pyval) (nested0 : SelectionSet)
    (kwargs : FrozenDict pyval) (child : SelectionSet) :
  let s := rest ++ [Field name kw0 nested0] in
  (s' <- SelectionSet_call s kwargs ;; SelectionSet_getitem s' child)
  = (s' <- SelectionSet_getitem s child ;; SelectionSet_call s' kwargs)
  /\
  (child <> [] ->
   (s' <- SelectionSet_call s kwargs ;; SelectionSet_getitem s' child)
   = Ok (rest ++ [Field name kwargs child])).
Proof.
  simpl. unfold SelectionSet_call, SelectionSet_getitem.
  rewrite !unpack_last_snoc. simpl. rewrite unpack_last_snoc.
  destruct child as [| c cs]; simpl.
  - split; [reflexivity | intros H; contradiction].
  - rewrite unpack_last_snoc. split; reflexivity.
Qed.

Lemma call_and_nesting_commute_witness :
  (s' <- SelectionSet_call [Field "foo" [] []] [("a", VInt 1)] ;;
   SelectionSet_getitem s' [Field "bar" [] []])
  = Ok ([] ++ [Field "foo" [("a", VInt 1)] [Field "bar" [] []]]).
Proof.
  apply (proj2 (call_and_nesting_commute [] "foo" [] [] [("a", VInt 1)]
                  [Field "bar" [] []])).
  discriminate.
Defined.

(** *** Every tree of fields can be written *)

Section Writing.

Variable inherited : string -> bool.

Lemma fold_option_write_all (fs : list Selection) :
  Forall (fun f => forall acc,
            write inherited f acc
            = if writable inherited f then Some (acc ++ [f]) else None) fs ->
  forall acc,
    fold_option (write inherited) fs acc
    = if forallb (writable inherited) fs then Some (acc ++ fs) else None.
Proof.
  induction 1 as [| f fs Hf _ IH]; intros acc; simpl.
  - now rewrite app_nil_r.
  - rewrite Hf. destruct (writable inherited f); [| reflexivity].
    simpl. rewrite IH. now rewrite <- app_assoc.
Qed.

Lemma write_field (f : Selection) :
  forall acc,
    write inherited f acc
    = if writable inherited f then Some (acc ++ [f]) else None.
Proof.
  induction f as [name kwargs nested IH | on nested IH]
    using Selection_nested_ind; intros acc; [| reflexivity].
  cbn [write writable]. unfold SelectionSet_attribute.
  destruct (found_by_lookup inherited name); [reflexivity |].
  destruct (mem "self" (keys kwargs)); [reflexivity |].
  unfold SelectionSet_getattr, SelectionSet_call. rewrite unpack_last_snoc.
  cbn [replace_kwargs bare_field bind returned negb andb].
  destruct nested as [| c cs]; [reflexivity |].
  rewrite (fold_option_write_all (c :: cs) IH).
  destruct (forallb (writable inherited) (c :: cs)); [| reflexivity].
  unfold SelectionSet_getitem. rewrite unpack_last_snoc. reflexivity.
Qed.

End Writing.

(** X8.  A selection set can be written with the builder - attribute
    access, a call and the bracket operation, applied from the empty
    [selector] - exactly when it is made of fields only, under names that
    normal attribute look-up does not find on a [SelectionSet], with no
    keyword named [self]; the builder then gives exactly that selection
    set.  A field named [_make], a name of the class body, cannot be
    written. *)
Theorem builder_writes_every_field_tree (inherited : string -> bool)
    (S : SelectionSet) :
  (forallb (writable inherited) S = true ->
   fold_option (write inherited) S selector = Some S)
  /\
  (forallb (writable inherited) S = false ->
   fold_option (write inherited) S selector = None)
  /\
  (forall name kwargs nested acc,
     mem name SelectionSet_namespace = true ->
     write inherited (Field name kwargs nested) acc = None).
Proof.
  assert (H : fold_option (write inherited) S selector
              = if forallb (writable inherited) S then Some S else None).
  { rewrite (fold_option_write_all inherited S); [reflexivity |].
    apply Forall_forall. intros f _. apply write_field. }
  split; [| split].
  - intros Hw. now rewrite H, Hw.
  - intros Hw. now rewrite H, Hw.
  - intros name kwargs nested acc Hname.
    rewrite write_field. cbn [writable]. unfold found_by_lookup.
    now rewrite Hname.
Qed.

(** The selection set of [test_valid]; and [_._make] is not written. *)
Lemma builder_writes_every_field_tree_witness :
  fold_option (write object_names) test_valid_selection selector
  = Some test_valid_selection
  /\
  fold_option (write object_names) [Field "name" [] []; Field "_make" [] []]
    selector
  = None.
Proof.
  split.
  - apply (proj1 (builder_writes_every_field_tree object_names
                    test_valid_selection)).
    reflexivity.
  - apply (proj1 (proj2 (builder_writes_every_field_tree object_names
                           [Field "name" [] []; Field "_make" [] []]))).
    reflexivity.
Defined.

(** ** Values and selections that cannot be serialized *)

Lemma argument_as_gql_cases (v : pyval) :
  argument_as_gql v
  = if supported v then Ok (literal_text v)
    else Raise (cannot_serialize_error v).
Proof.
  destruct v as [| [|] | z | bits | s | s | cls m | items | text mro
                 | text mro s];
    try reflexivity;
    unfold argument_as_gql; cbn [type_mro];
    now rewrite dispatch_user_classes.
Qed.

(** X9.  [argument_as_gql] has a literal for strings, IDs, instances of
    user classes that derive from [str], integers, booleans, [None] and
    enum members.  For every other value - floats, lists and the
    instances of user classes that derive from [object] only - it raises
    the [TypeError] whose message ends with the text of the value's
    class, as in [cannot serialize to GraphQL: <class 'float'>]. *)
Theorem argument_as_gql_supported (v : pyval) :
  argument_as_gql v
  = (if supported v then Ok (literal_text v)
     else Raise (TypeError ("cannot serialize to GraphQL: " ++ type_text v)))
  /\ (forall bits,
        argument_as_gql (VFloat bits)
        = Raise (TypeError "cannot serialize to GraphQL: <class 'float'>"))
  /\ (forall items,
        argument_as_gql (VList items)
        = Raise (TypeError "cannot serialize to GraphQL: <class 'list'>"))
  /\ (forall class_text mro,
        argument_as_gql (VInstance class_text mro)
        = Raise (TypeError ("cannot serialize to GraphQL: " ++ class_text)))
  /\ (forall class_text mro s,
        argument_as_gql (VStrSubclass class_text mro s)
        = Ok (dquote ++ s ++ dquote)%string).
Proof.
  split; [apply argument_as_gql_cases |].
  repeat split; intros; now rewrite argument_as_gql_cases.
Qed.

Lemma forallb_pointwise {A} (f g : A -> bool) (l : list A) :
  (forall x, f x = g x) -> forallb f l = forallb g l.
Proof.
  intros H. induction l as [| x l IH]; simpl; [reflexivity |].
  now rewrite H, IH.
Qed.

Lemma map_result_ok_all {A B} (f : A -> result B) (l : list A) :
  is_ok (map_result f l) = true -> forall x, In x l -> is_ok (f x) = true.
Proof.
  induction l as [| a l IH]; simpl; intros H x Hx; [contradiction |].
  destruct (f a) as [y |] eqn:Ha; simpl in H; [| discriminate].
  destruct (map_result f l) as [ys |]; simpl in *; [| discriminate].
  destruct Hx as [<- | Hx]; [now rewrite Ha | now apply IH].
Qed.

Lemma arguments_gql_ok (kwargs : FrozenDict pyval) :
  is_ok (arguments_gql kwargs) = true ->
  existsb (fun kv => negb (supported (snd kv))) kwargs = false.
Proof.
  intros H.
  destruct (existsb (fun kv => negb (supported (snd kv))) kwargs) eqn:He;
    [| reflexivity].
  apply existsb_exists in He as [kv [Hin Hkv]].
  destruct kwargs as [| kv0 kwargs]; [contradiction |].
  unfold arguments_gql in H.
  destruct (map_result format_kwarg (kv0 :: kwargs)) as [parts |] eqn:Hparts;
    [| discriminate].
  assert (Hok : is_ok (format_kwarg kv) = true).
  { apply (map_result_ok_all format_kwarg (kv0 :: kwargs));
      [now rewrite Hparts | assumption]. }
  unfold format_kwarg in Hok. rewrite argument_as_gql_cases in Hok.
  apply negb_true_iff in Hkv. rewrite Hkv in Hok. discriminate Hok.
Qed.

Lemma block_ok (ss : list Selection) :
  Forall (fun s => is_ok (gql s) = true -> has_unsupported s = false) ss ->
  is_ok (SelectionSet_gql_with gql ss) = true ->
  existsb has_unsupported ss = false.
Proof.
  intros IH H.
  destruct (existsb has_unsupported ss) eqn:He; [| reflexivity].
  apply existsb_exists in He as [c [Hin Hc]].
  destruct ss as [| c0 cs]; [contradiction |].
  unfold SelectionSet_gql_with in H.
  destruct (map_result (fun f => text <- gql f ;; Ok (indent text INDENT))
              (c0 :: cs)) as [lines |] eqn:Hlines; [| discriminate].
  assert (Hok : is_ok (text <- gql c ;; Ok (indent text INDENT)) = true).
  { apply (map_result_ok_all
             (fun f => text <- gql f ;; Ok (indent text INDENT)) (c0 :: cs));
      [now rewrite Hlines | assumption]. }
  rewrite Forall_forall in IH.
  rewrite (IH c Hin) in Hc; [discriminate Hc |].
  now destruct (gql c).
Qed.

Lemma gql_ok_supported (s : Selection) :
  is_ok (gql s) = true -> has_unsupported s = false.
Proof.
  induction s as [name kwargs ss IH | on ss IH] using Selection_nested_ind;
    intros H; cbn [has_unsupported].
  - rewrite gql_field_eq in H.
    destruct (arguments_gql kwargs) as [arguments |] eqn:Hargs;
      [| discriminate].
    rewrite (arguments_gql_ok kwargs) by now rewrite Hargs.
    cbn [bind orb] in *.
    destruct ss as [| c cs]; [reflexivity |].
    apply (block_ok (c :: cs) IH).
    now destruct (SelectionSet_gql_with gql (c :: cs)).
  - rewrite gql_fragment_eq in H. apply (block_ok ss IH).
    now destruct (SelectionSet_gql_with gql ss).
Qed.

(** X10.  An argument value that is not supported, at any depth of a
    selection, prevents serialization: the selection, every selection set
    that holds it and every operation on such a set raise, and no text
    is produced. *)
Theorem unsupported_value_prevents_serialization (s : Selection) :
  has_unsupported s = true ->
  is_ok (gql s) = false
  /\ (forall before after,
        is_ok (SelectionSet_gql (before ++ s :: after)) = false)
  /\ (forall t before after,
        is_ok (Operation_gql (mkOperation t (before ++ s :: after))) = false).
Proof.
  intros Hs.
  assert (Hgql : is_ok (gql s) = false).
  { destruct (is_ok (gql s)) eqn:H; [| reflexivity].
    apply gql_ok_supported in H. congruence. }
  assert (Hset : forall before after,
             is_ok (SelectionSet_gql (before ++ s :: after)) = false).
  { intros before after.
    destruct (is_ok (SelectionSet_gql (before ++ s :: after))) eqn:H;
      [| reflexivity].
    apply block_ok in H.
    - assert (He : existsb has_unsupported (before ++ s :: after) = true).
      { apply existsb_exists. exists s. split; [| assumption].
        apply in_or_app. right. now left. }
      congruence.
    - apply Forall_forall. intros c _. apply gql_ok_supported. }
  split; [assumption |]. split; [assumption |].
  intros t before after. unfold Operation_gql. cbn [op_selection_set].
  specialize (Hset before after).
  now destruct (SelectionSet_gql (before ++ s :: after)).
Qed.

(** A float three levels deep, as in [_.dog[_.owner[_.pets(weight=4.5)]]]. *)
Lemma unsupported_value_prevents_serialization_witness :
  is_ok (gql (Field "dog" []
                [Field "owner" []
                   [Field "name" [] [];
                    Field "pets" [("weight", VFloat 45)] []]]))
  = false.
Proof.
  apply (proj1 (unsupported_value_prevents_serialization
                  (Field "dog" []
                     [Field "owner" []
                        [Field "name" [] [];
                         Field "pets" [("weight", VFloat 45)] []]])
                  eq_refl)).
Defined.

(** ** Selection sets and operations as text *)

Lemma block_text (head : string) (c : Selection) (cs : list Selection) :
  forallb tidy (c :: cs) = true ->
  SelectionSet_gql_with gql (c :: cs)
  = Ok ("{" ++ newline ++ join newline (flat_map (layout 1) (c :: cs))
            ++ newline ++ "}")%string
  /\ join newline (block_layout head (c :: cs))
     = (head ++ "{" ++ newline
        ++ join newline (flat_map (layout 1) (c :: cs))
        ++ newline ++ "}")%string.
Proof.
  intros Htidy. split.
  - apply gql_block; [| assumption].
    apply Forall_forall. intros s _. apply gql_layout.
  - unfold block_layout.
    rewrite join_cons by (destruct (flat_map (layout 1) (c :: cs)); discriminate).
    rewrite join_app; [| apply flat_map_layout_nonempty | discriminate].
    cbn [join String.concat]. now rewrite !append_assoc.
Qed.

(** X11.  An empty selection set is serialized as the empty text, and an
    operation on it as the keyword and a space.  A selection set that is
    not empty, with single-line names and literals, is a block in braces
    with its selections one level deep, and an operation is that block
    after the keyword and a space. *)
Theorem selection_set_and_operation_text (t : OperationType)
    (S : SelectionSet) :
  (S = [] ->
   SelectionSet_gql S = Ok EmptyString
   /\ Operation_gql (mkOperation t S)
      = Ok (OperationType_value t ++ " ")%string)
  /\
  (S <> [] -> forallb tidy S = true ->
   SelectionSet_gql S = Ok (join newline (block_layout EmptyString S))
   /\ Operation_gql (mkOperation t S)
      = Ok (join newline
              (block_layout (OperationType_value t ++ " ") S))).
Proof.
  split.
  - intros ->. split; reflexivity.
  - intros Hne Htidy. destruct S as [| c cs]; [contradiction |].
    unfold Operation_gql, SelectionSet_gql. cbn [op_selection_set op_type].
    destruct (block_text EmptyString c cs Htidy) as [Hgql Hempty].
    destruct (block_text (OperationType_value t ++ " ") c cs Htidy)
      as [_ Hhead].
    rewrite Hgql, Hempty, Hhead. cbn [bind]. split; [reflexivity |].
    now rewrite !append_assoc.
Qed.

Lemma selection_set_and_operation_text_witness :
  Operation_gql (mkOperation QUERY [Field "dog" [] [Field "name" [] []]])
  = Ok (join newline ["query {"; "  dog {"; "    name"; "  }"; "}"]).
Proof.
  apply (proj2 (proj2 (selection_set_and_operation_text QUERY
                         [Field "dog" [] [Field "name" [] []]])
                 ltac:(discriminate) eq_refl)).
Defined.

(** ** Strings are not escaped *)

(** X12.  String arguments are written between double quotes as they
    are, without escaping.  A string that holds a double quote ends its
    own literal: the field is then serialized as the same text as a field
    with one more argument, although the two fields differ. *)
Theorem unescaped_string_adds_argument (name k1 s1 k2 s2 : string)
    (others : FrozenDict pyval) (selection_set : SelectionSet) :
  gql (Field name
         ((k1, VStr (s1 ++ dquote ++ ", " ++ k2 ++ ": " ++ dquote ++ s2))
            :: others)
         selection_set)
  = gql (Field name ((k1, VStr s1) :: (k2, VStr s2) :: others)
           selection_set)
  /\
  Field name
    ((k1, VStr (s1 ++ dquote ++ ", " ++ k2 ++ ": " ++ dquote ++ s2))
       :: others)
    selection_set
  <> Field name ((k1, VStr s1) :: (k2, VStr s2) :: others) selection_set.
Proof.
  split.
  2: { intros [= _ H]. apply (f_equal (@List.length _)) in H.
       simpl in H. lia. }
  rewrite !gql_field_eq. f_equal.
  unfold arguments_gql. cbn [map_result]. unfold format_kwarg at 1 3 4.
  cbn [argument_as_gql type_mro dispatch registry quote_format fst snd bind].
  destruct (map_result format_kwarg others) as [parts |]; [| reflexivity].
  cbn [bind]. f_equal. f_equal. f_equal.
  destruct parts as [| p parts].
  - cbn [join String.concat]. now rewrite !append_assoc.
  - unfold join. cbn [String.concat]. now rewrite !append_assoc.
Qed.

(** ** Laws of the membership tests *)

(** X13.  Nullable[T] accepts what [T] accepts, and [None]; wrapping
    twice accepts the same values as wrapping once; List[T] does not
    accept [None], a Nullable around it does. *)
Theorem nullable_membership_laws (T : pytype) (v : pyval) :
  (isinstance v T = true -> isinstance v (TNullable T) = true)
  /\ isinstance VNone (TNullable T) = true
  /\ isinstance v (TNullable (TNullable T)) = isinstance v (TNullable T)
  /\ isinstance v (TNullable (TList T))
     = (is_none v || isinstance v (TList T))
  /\ isinstance VNone (TList T) = false.
Proof.
  repeat split; simpl.
  - intros ->. apply orb_true_r.
  - now destruct (is_none v).
Qed.

Lemma nullable_membership_laws_witness :
  isinstance (VInt 3) (TNullable TInt) = true.
Proof.
  apply (proj1 (nullable_membership_laws TInt (VInt 3))). reflexivity.
Defined.

(** X14.  The empty list is an instance of List[T]; a concatenation is
    an instance exactly when both parts are; the test depends on [T] only
    through the values [T] accepts; and an instance of List[T] is an
    instance of List[Nullable[T]]. *)
Theorem list_membership_laws (T : pytype) (a b : list pyval) :
  isinstance (VList []) (TList T) = true
  /\ isinstance (VList (a ++ b)) (TList T)
     = isinstance (VList a) (TList T) && isinstance (VList b) (TList T)
  /\ (forall U,
        (forall v, isinstance v T = isinstance v U) ->
        forall v, isinstance v (TList T) = isinstance v (TList U))
  /\ (isinstance (VList a) (TList T) = true ->
      isinstance (VList a) (TList (TNullable T)) = true).
Proof.
  split; [reflexivity |]. split; [simpl; apply forallb_app |]. split.
  - intros U H v. simpl. destruct v; try reflexivity.
    now apply forallb_pointwise.
  - simpl. intros H. apply forallb_forall. intros x Hx.
    rewrite (proj1 (forallb_forall _ _) H x Hx). apply orb_true_r.
Qed.

Lemma list_membership_laws_witness :
  isinstance (VList [VInt 1; VInt 2]) (TList (TNullable TInt)) = true.
Proof.
  apply (proj2 (proj2 (proj2 (list_membership_laws TInt [VInt 1; VInt 2] [])))).
  reflexivity.
Defined.

(** [Nullable[List[Nullable[Human]]]] unwraps to [Human]. *)
Lemma wraps_unwrap_witness :
  _unwrap_list_or_nullable (TNullable (TList (TNullable Human))) = Human.
Proof.
  apply (wraps_unwrap Human).
  - apply wraps_nullable, wraps_list, wraps_nullable, wraps_here.
  - reflexivity.
Defined.

(** ** Serialization loses nothing on plain trees *)

Lemma append_cancel_l (p a b : string) :
  (p ++ a = p ++ b)%string -> a = b.
Proof. induction p as [| c p IH]; simpl; [auto |]. intros [= H]. auto. Qed.

Lemma name_chars_app (a b : string) :
  name_chars (a ++ b) = name_chars a && name_chars b.
Proof.
  induction a as [| c a IH]; simpl; [reflexivity |].
  rewrite IH. apply andb_assoc.
Qed.

Lemma linebreak_is_space (c : ascii) :
  is_linebreak c = true -> is_space c = true.
Proof.
  unfold is_linebreak, is_space.
  rewrite !orb_true_iff, !andb_true_iff, !Nat.leb_le, !Nat.eqb_eq. lia.
Qed.

Lemma name_chars_one_line (s : string) :
  name_chars s = true -> one_line s = true.
Proof.
  induction s as [| c s IH]; simpl; [reflexivity |].
  intros H. apply andb_true_iff in H. destruct H as [Hc Hs].
  rewrite (IH Hs), andb_true_r.
  unfold name_char in Hc. rewrite !andb_true_iff in Hc.
  destruct Hc as [[Hspace _] _]. apply negb_true_iff in Hspace.
  apply negb_true_iff.
  destruct (is_linebreak c) eqn:Hl; [| reflexivity].
  apply linebreak_is_space in Hl. congruence.
Qed.

Lemma plain_name_has_text (s : string) :
  plain_name s = true -> has_text s = true.
Proof.
  destruct s as [| c s]; [discriminate |]. simpl. intros H.
  apply andb_true_iff in H. destruct H as [Hc _].
  unfold name_char in Hc. rewrite !andb_true_iff in Hc.
  destruct Hc as [[Hspace _] _]. now rewrite Hspace.
Qed.

Lemma plain_name_chars (s : string) :
  plain_name s = true -> name_chars s = true.
Proof. destruct s; [discriminate | auto]. Qed.

Lemma plain_tidy (s : Selection) : plain s = true -> tidy s = true.
Proof.
  induction s as [name kwargs ss IH | on ss IH] using Selection_nested_ind;
    [| discriminate].
  cbn [plain tidy]. rewrite !andb_true_iff. intros [[Hname Hkw] Hss].
  destruct kwargs; [| discriminate]. repeat split.
  - now apply name_chars_one_line, plain_name_chars.
  - now apply plain_name_has_text.
  - apply forallb_forall. intros c Hc. rewrite Forall_forall in IH.
    apply IH; [assumption |]. now apply (proj1 (forallb_forall _ _) Hss).
Qed.

(** Lines joined by newlines can be told apart again. *)
Lemma split_at_newline (a b x y : string) :
  one_line a = true -> one_line b = true ->
  (a ++ newline ++ x = b ++ newline ++ y)%string -> a = b /\ x = y.
Proof.
  revert b. induction a as [| c a IH]; intros [| c' b] Ha Hb H; simpl in *.
  - injection H as H. now split.
  - injection H as Hc _. subst c'. discriminate Hb.
  - injection H as Hc _. subst c. discriminate Ha.
  - injection H as -> H.
    apply andb_true_iff in Ha. apply andb_true_iff in Hb.
    destruct (IH b (proj2 Ha) (proj2 Hb) H) as [-> ->]. now split.
Qed.

Lemma one_line_with_newline (a x : string) :
  one_line (a ++ newline ++ x) = false.
Proof.
  induction a as [| c a IH]; [reflexivity |].
  cbn [append one_line]. rewrite IH. apply andb_false_r.
Qed.

Lemma join_newline_inj (l1 l2 : list string) :
  Forall (fun l => one_line l = true) l1 ->
  Forall (fun l => one_line l = true) l2 ->
  l1 <> [] -> l2 <> [] ->
  join newline l1 = join newline l2 -> l1 = l2.
Proof.
  intros H1. revert l2.
  induction H1 as [| a l1 Ha H1 IH]; intros l2 H2 Hne1 Hne2 Heq;
    [contradiction |].
  destruct H2 as [| b l2 Hb H2]; [contradiction |].
  destruct l1 as [| a2 l1], l2 as [| b2 l2].
  - simpl in Heq. now subst.
  - rewrite (join_cons newline b) in Heq by discriminate.
    change (join newline [a]) with a in Heq.
    subst a. now rewrite one_line_with_newline in Ha.
  - rewrite (join_cons newline a) in Heq by discriminate.
    change (join newline [b]) with b in Heq.
    subst b. now rewrite one_line_with_newline in Hb.
  - rewrite (join_cons newline a), (join_cons newline b) in Heq
      by discriminate.
    destruct (split_at_newline _ _ _ _ Ha Hb Heq) as [-> Hrest].
    f_equal. apply IH; try assumption; discriminate.
Qed.

Lemma spaces_S_r (d : nat) : spaces (S d) = (spaces d ++ INDENT)%string.
Proof.
  induction d as [| d IH]; [reflexivity |].
  cbn [spaces] in *. rewrite IH at 1. now rewrite !append_assoc.
Qed.

Lemma name_suffix_inj (n n' : string) :
  name_chars n = true -> name_chars n' = true ->
  (n ++ " {" = n' ++ " {")%string -> n = n'.
Proof.
  revert n'. induction n as [| c n IH]; intros [| c' n'] Hn Hn' H;
    simpl in *.
  - reflexivity.
  - injection H as <- _. discriminate Hn'.
  - injection H as -> _. discriminate Hn.
  - injection H as -> H. f_equal.
    apply andb_true_iff in Hn. apply andb_true_iff in Hn'.
    apply IH; tauto.
Qed.

Lemma name_not_opening (n n' : string) :
  name_chars n = true -> n <> (n' ++ " {")%string.
Proof.
  intros Hn ->. rewrite name_chars_app in Hn.
  apply andb_true_iff in Hn. destruct Hn as [_ Hn]. discriminate Hn.
Qed.

(** The first line of a plain field, and the rest of its lines. *)
Lemma plain_layout (d : nat) (s : Selection) :
  plain s = true ->
  exists name ss,
    s = Field name [] ss /\ plain_name name = true /\
    forallb plain ss = true /\
    layout d s
    = match ss with
      | [] => [(spaces d ++ name)%string]
      | _ => (spaces d ++ name ++ " {")%string
               :: flat_map (layout (S d)) ss ++ [(spaces d ++ "}")%string]
      end.
Proof.
  destruct s as [name kwargs ss | on ss]; [| discriminate].
  cbn [plain]. rewrite !andb_true_iff. intros [[Hname Hkw] Hss].
  destruct kwargs; [| discriminate].
  exists name, ss. repeat split; try assumption.
  destruct ss; cbn [layout argument_list append]; [| reflexivity].
  now rewrite append_nil_r.
Qed.

Lemma closing_is_no_field (d : nat) (c : Selection) (tail rest : list string) :
  plain c = true ->
  (spaces d ++ "}")%string :: rest <> layout (S d) c ++ tail.
Proof.
  intros Hc H.
  destruct (plain_layout (S d) c Hc) as [name [ss [_ [_ [_ Hl]]]]].
  rewrite Hl, spaces_S_r in H.
  destruct ss; cbn [app] in H; injection H as H _;
    rewrite append_assoc in H; apply append_cancel_l in H; discriminate H.
Qed.

Lemma layout_prefix_free (s : Selection) :
  plain s = true ->
  forall d s' rest rest',
    plain s' = true ->
    layout d s ++ rest = layout d s' ++ rest' ->
    s = s' /\ rest = rest'.
Proof.
  induction s as [name kwargs ss IH | on ss IH] using Selection_nested_ind;
    [| discriminate].
  intros Hs d s' rest rest' Hs' Heq.
  destruct (plain_layout d _ Hs) as [n [cs [Es [Hn [Hcs Hl]]]]].
  injection Es as <- -> <-.
  destruct (plain_layout d _ Hs') as [n' [cs' [-> [Hn' [Hcs' Hl']]]]].
  rewrite Hl, Hl' in Heq. clear Hl Hl' Hs Hs'.
  apply plain_name_chars in Hn. apply plain_name_chars in Hn'.
  (* the children, up to the closing brace *)
  assert (Hchildren :
    forall cs' tail tail',
      forallb plain cs' = true ->
      flat_map (layout (S d)) ss ++ (spaces d ++ "}")%string :: tail
      = flat_map (layout (S d)) cs' ++ (spaces d ++ "}")%string :: tail' ->
      ss = cs' /\ tail = tail').
  { clear Heq Hcs' cs' rest rest'.
    induction IH as [| c cs Hc _ IHcs]; intros cs' tail tail' Hcs' Heq.
    - destruct cs' as [| c' cs']; cbn [flat_map app] in Heq.
      + injection Heq as ->. now split.
      + exfalso. cbn [forallb] in Hcs'. apply andb_true_iff in Hcs'.
        rewrite <- app_assoc in Heq.
        now apply (closing_is_no_field d c' _ _ (proj1 Hcs') Heq).
    - cbn [forallb] in Hcs. apply andb_true_iff in Hcs.
      destruct cs' as [| c' cs']; cbn [flat_map app] in Heq.
      + exfalso. rewrite <- app_assoc in Heq. symmetry in Heq.
        now apply (closing_is_no_field d c _ _ (proj1 Hcs) Heq).
      + cbn [forallb] in Hcs'. apply andb_true_iff in Hcs'.
        rewrite <- !app_assoc in Heq.
        destruct (Hc (proj1 Hcs) (S d) c' _ _ (proj1 Hcs') Heq) as [-> Heq'].
        destruct (IHcs (proj2 Hcs) cs' tail tail' (proj2 Hcs') Heq')
          as [-> ->].
        now split. }
  destruct ss as [| c cs], cs' as [| c' cs']; cbn [app] in Heq.
  - injection Heq as Hline ->. apply append_cancel_l in Hline. now subst.
  - exfalso. injection Heq as Hline _. apply append_cancel_l in Hline.
    now apply (name_not_opening name n').
  - exfalso. injection Heq as Hline _. apply append_cancel_l in Hline.
    symmetry in Hline. now apply (name_not_opening n' name).
  - injection Heq as Hline Heq. apply append_cancel_l in Hline.
    apply name_suffix_inj in Hline; try assumption. subst n'.
    rewrite <- !app_assoc in Heq. cbn [app] in Heq.
    destruct (Hchildren (c' :: cs') rest rest' Hcs') as [Hsame ->].
    { cbn [flat_map]. rewrite <- !app_assoc. exact Heq. }
    now rewrite Hsame.
Qed.

(** X16.  Serialization loses nothing on trees of fields without
    arguments whose names have neither white space nor braces: two such
    selections with the same text are the same selection. *)
Theorem plain_serialization_injective (s s' : Selection) :
  plain s = true -> plain s' = true ->
  gql s = gql s' -> s = s'.
Proof.
  intros Hs Hs' Heq.
  rewrite (gql_layout s (plain_tidy s Hs)) in Heq.
  rewrite (gql_layout s' (plain_tidy s' Hs')) in Heq.
  injection Heq as Heq.
  apply join_newline_inj in Heq.
  - assert (H : layout 0 s ++ [] = layout 0 s' ++ []) by now rewrite Heq.
    now destruct (layout_prefix_free s Hs 0 s' [] [] Hs' H).
  - eapply Forall_impl; [| apply (layout_text_lines s 0 (plain_tidy s Hs))].
    now intros l [Hl _].
  - eapply Forall_impl; [| apply (layout_text_lines s' 0 (plain_tidy s' Hs'))].
    now intros l [Hl _].
  - apply layout_nonempty.
  - apply layout_nonempty.
Qed.

Lemma plain_serialization_injective_witness :
  Field "dog" [] [Field "name" [] []] = Field "dog" [] [Field "name" [] []].
Proof.
  apply (plain_serialization_injective
           (Field "dog" [] [Field "name" [] []])
           (Field "dog" [] [Field "name" [] []]));
    reflexivity.
Defined.

(** ** The HTTP middleware *)

Lemma dict_get_snoc {V} (d : FrozenDict V) (key : string) (v : V)
    (k : string) :
  dict_get (d ++ [(key, v)]) k
  = match dict_get d k with
    | Some x => Some x
    | None => if String.eqb k key then Some v else None
    end.
Proof.
  induction d as [| [k' x] d IH]; simpl; [reflexivity |].
  now destruct (String.eqb k k').
Qed.

Lemma setdefault_get (d : FrozenDict JSON) (key : string) (default : JSON) :
  dict_get (setdefault d key default) key
  = Some (match dict_get d key with Some x => x | None => default end)
  /\ forall k, k <> key ->
               dict_get (setdefault d key default) k = dict_get d k.
Proof.
  unfold setdefault. destruct (dict_get d key) as [x |] eqn:Hget.
  - now split.
  - split.
    + now rewrite dict_get_snoc, Hget, String.eqb_refl.
    + intros k Hk. rewrite dict_get_snoc.
      destruct (dict_get d k); [reflexivity |].
      now rewrite (proj2 (String.eqb_neq k key) Hk).
Qed.

(** X17.  A response with status 400 or above raises [HTTPError] with
    the response and the request, whatever its body is: the body is not
    decoded. *)
Theorem http_error_takes_precedence (dumps_query : string -> string)
    (loads : string -> outcome JSON)
    (init : FrozenDict JSON -> outcome ErrorResponseFields)
    (url query_str : string) (response : Response) :
  (400 <= status_code response)%Z ->
  snd (middleware dumps_query loads init url query_str) response
  = Raised (HTTPError response
              (fst (middleware dumps_query loads init url query_str))).
Proof.
  intros H. cbn [middleware fst snd]. unfold middleware_resume.
  now rewrite (proj2 (Z.leb_le _ _) H).
Qed.

Lemma http_error_takes_precedence_witness :
  snd (middleware (fun q => q)
         (fun _ => Returned (JObject [("data", JObject [])]))
         declared_fields_only
         "https://api.github.com/graphql" "{ viewer }")
      (mkResponse 404 "Not Found" [])
  = Raised (HTTPError (mkResponse 404 "Not Found" [])
              (mkRequest "POST" "https://api.github.com/graphql" "{ viewer }"
                 [("Content-Type", "application/json")])).
Proof.
  apply (http_error_takes_precedence (fun q => q)
           (fun _ => Returned (JObject [("data", JObject [])]))
           declared_fields_only
           "https://api.github.com/graphql" "{ viewer }"
           (mkResponse 404 "Not Found" [])).
  simpl. lia.
Defined.

(** X18.  When the middleware returns a result, the status of the
    response was below 400, its body decoded to an object without an
    [errors] member, the result holds the [data] member of that object,
    and its metadata are the response and the request. *)
Theorem middleware_result_origin (dumps_query : string -> string)
    (loads : string -> outcome JSON)
    (init : FrozenDict JSON -> outcome ErrorResponseFields)
    (url query_str : string) (response : Response) (r : RawResult) :
  snd (middleware dumps_query loads init url query_str) response
  = Returned r ->
  (status_code response < 400)%Z
  /\ exists members,
       loads (resp_content response) = Returned (JObject members)
       /\ ~ In "errors" (keys members)
       /\ dict_get members "data" = Some (raw_inner r)
       /\ raw_metadata r
          = mkQueryMetadata response
              (fst (middleware dumps_query loads init url query_str)).
Proof.
  cbn [middleware fst snd]. unfold middleware_resume.
  destruct (400 <=? status_code response)%Z eqn:Hstatus; [discriminate |].
  apply Z.leb_gt in Hstatus.
  destruct (loads (resp_content response)) as [content | e]; [| discriminate].
  destruct content as [| b | z | bits | s | items | members]; simpl;
    try discriminate.
  - destruct (String.index 0 "errors" s); discriminate.
  - destruct (existsb _ items); discriminate.
  - destruct (mem "errors" (keys members)) eqn:Hmem.
    { unfold raise_ErrorResponse. destruct (init _); discriminate. }
    destruct (dict_get members "data") as [data |] eqn:Hdata; [| discriminate].
    intros [= <-]. split; [assumption |]. exists members.
    repeat split; try reflexivity; try assumption.
    now apply mem_not_In.
Qed.

Lemma middleware_result_origin_witness :
  (status_code (mkResponse 200 "{}" []) < 400)%Z.
Proof.
  apply (middleware_result_origin (fun q => q)
           (fun _ => Returned (JObject [("data", JObject [])]))
           declared_fields_only
           "url" "{ viewer }" (mkResponse 200 "{}" [])
           (mkRawResult (JObject [])
              (mkQueryMetadata (mkResponse 200 "{}" [])
                 (mkRequest "POST" "url" "{ viewer }"
                    [("Content-Type", "application/json")])))).
  reflexivity.
Defined.

(** X19.  When the body of a response with status below 400 is an
    object with an [errors] member, the middleware calls the constructor
    of [ErrorResponse] with the members of the body as keywords: [data] as
    in the body, or an empty object when the body has none, and every
    other member as it is.  It raises the exception the constructor
    returns, or the one the constructor raises, and returns no result. *)
Theorem error_response_keywords (dumps_query : string -> string)
    (loads : string -> outcome JSON)
    (init : FrozenDict JSON -> outcome ErrorResponseFields)
    (url query_str : string) (response : Response)
    (members : FrozenDict JSON) :
  (status_code response < 400)%Z ->
  loads (resp_content response) = Returned (JObject members) ->
  In "errors" (keys members) ->
  exists content,
    snd (middleware dumps_query loads init url query_str) response
    = match init content with
      | Returned fields => Raised (ErrorResponse fields)
      | Raised e => Raised e
      end
    /\ dict_get content "data"
       = Some (match dict_get members "data" with
               | Some data => data
               | None => JObject []
               end)
    /\ (forall k, k <> "data" -> dict_get content k = dict_get members k)
    /\ forall r,
         snd (middleware dumps_query loads init url query_str) response
         <> Returned r.
Proof.
  intros Hstatus Hloads Herrors.
  assert (H : snd (middleware dumps_query loads init url query_str) response
              = raise_ErrorResponse init
                  (setdefault members "data" (JObject []))).
  { cbn [middleware fst snd]. unfold middleware_resume.
    rewrite (proj2 (Z.leb_gt _ _) Hstatus), Hloads. simpl.
    now rewrite (proj2 (mem_In _ _) Herrors). }
  exists (setdefault members "data" (JObject [])).
  split; [exact H |].
  split; [apply setdefault_get |]. split; [apply setdefault_get |].
  intros r. rewrite H. unfold raise_ErrorResponse.
  destruct (init _); discriminate.
Qed.

(** A body with [errors] only, given to a constructor that takes the
    declared fields and no other keyword: the [ErrorResponse] has an empty
    object as its data.  With one more member, [extensions], that
    constructor raises its own exception. *)
Lemma error_response_keywords_witness :
  (exists content,
     snd (middleware (fun q => q)
            (fun _ => Returned (JObject [("errors", JArray [JString "bad"])]))
            declared_fields_only "url" "{ viewer }")
         (mkResponse 200 "{}" [])
     = match declared_fields_only content with
       | Returned fields => Raised (ErrorResponse fields)
       | Raised e => Raised e
       end
     /\ dict_get content "data" = Some (JObject []))
  /\
  snd (middleware (fun q => q)
         (fun _ => Returned (JObject [("errors", JArray [JString "bad"])]))
         declared_fields_only "url" "{ viewer }")
      (mkResponse 200 "{}" [])
  = Raised (ErrorResponse
              (mkErrorResponse (JObject []) (JArray [JString "bad"])))
  /\
  snd (middleware (fun q => q)
         (fun _ => Returned (JObject [("errors", JArray []);
                                      ("extensions", JObject [])]))
         declared_fields_only "url" "{ viewer }")
      (mkResponse 200 "{}" [])
  = Raised PyTypeError.
Proof.
  split; [| split; reflexivity].
  destruct (error_response_keywords (fun q => q)
              (fun _ => Returned (JObject [("errors", JArray [JString "bad"])]))
              declared_fields_only "url" "{ viewer }" (mkResponse 200 "{}" [])
              [("errors", JArray [JString "bad"])])
    as [content [Hraise [Hdata _]]].
  - simpl. lia.
  - reflexivity.
  - simpl. auto.
  - exists content. split; assumption.
Defined.
